(** * Expense tracker: the persistence and aggregation core

    A shallow embedding of [EXPENSE_TRACKER.py]: the [DB] class (three SQLite
    tables and the queries over them) and the [MainApp.add_expense] handler
    with its validation and budget alert.

    Modelling conventions.
    - A Python [str] is a Rocq [string]; SQLite compares TEXT with the BINARY
      collation, that is byte by byte and then by length, which is
      [String.compare].
    - A Python [int] (ids, year, month) is a [Z].
    - A REAL amount is a finite double, held as the rational [Q] that it
      denotes; comparisons of doubles are comparisons of these rationals, and
      an addition rounds to the nearest double. A running sum that leaves
      the range of the doubles is an infinity: it is held as a rational of
      magnitude [2 ^ 1024] or more and stays as it is. Amount texts that
      read as an infinity or NaN are kept apart and not stored.
    - A table is the list of its rows in rowid order, together with the
      [sqlite_sequence] counter that AUTOINCREMENT keeps for it.
    - [cur.execute] either returns or raises [sqlite3.IntegrityError]. *)

From Stdlib Require Import ZArith QArith List String Ascii Bool Lia.
From Stdlib Require Import Permutation Sorted DecimalString.
Import ListNotations.

Local Open Scope Z_scope.

(** ** Results of statements that may raise *)

Inductive exn : Type :=
| IntegrityError.

Inductive result (A : Type) : Type :=
| Ok (a : A)
| Raised (e : exn).

Arguments Ok {A} a.
Arguments Raised {A} e.

Definition is_raised {A : Type} (r : result A) : bool :=
  match r with
  | Ok _ => false
  | Raised _ => true
  end.

(** One statement after another: an exception ends the sequence. *)
Definition and_then {A B : Type} (r : result A) (k : A -> result B) : result B :=
  match r with
  | Ok a => k a
  | Raised e => Raised e
  end.

(** ** Rows and tables *)

Record user_row : Type := mkUser {
  usr_id : Z;
  usr_username : string;
  usr_password_hash : string;
  usr_budget : Q
}.

(** [cat_user_id = None] is SQL NULL: a global category. *)
Record category_row : Type := mkCategory {
  cat_id : Z;
  cat_name : string;
  cat_user_id : option Z
}.

Record expense_row : Type := mkExpense {
  exp_id : Z;
  exp_user_id : Z;
  exp_amount : Q;
  exp_category : string;
  exp_description : string;
  exp_date : string
}.

Record db : Type := mkDb {
  users : list user_row;
  users_seq : Z;
  categories : list category_row;
  categories_seq : Z;
  expenses : list expense_row;
  expenses_seq : Z
}.

(** The database file before anything was written to it. *)
Definition empty_db : db := mkDb [] 0 [] 0 [] 0.

(** ** SQL building blocks *)

Definition Qlt_bool (a b : Q) : bool := negb (Qle_bool b a).

(** *** Arithmetic of REAL: IEEE 754 binary64, round to nearest, ties to even *)

(** The integer part of the base-2 logarithm of [n / d]. *)
Definition floor_log2 (n d : positive) : Z :=
  let k := Z.log2 (Zpos n) - Z.log2 (Zpos d) in
  let above := if 0 <=? k then Zpos d * 2 ^ k <=? Zpos n
               else Zpos d <=? Zpos n * 2 ^ (- k) in
  if above then k else k - 1.

(** The integer nearest to [num / den]; of two equally near ones the even
    one. *)
Definition nearest_even (num den : Z) : Z :=
  let q := num / den in
  let r := num mod den in
  if 2 * r <? den then q
  else if den <? 2 * r then q + 1
  else if Z.even q then q else q + 1.

(** The double nearest to [n / d]: a significand of 53 bits, and below
    [2 ^ -1022] the subnormal numbers, multiples of [2 ^ -1074]. *)
Definition round_pos (n d : positive) : Q :=
  let e := Z.max (floor_log2 n d - 52) (-1074) in
  if 0 <=? e
  then inject_Z (nearest_even (Zpos n) (Zpos d * 2 ^ e) * 2 ^ e)
  else Qred (Qmake (nearest_even (Zpos n * 2 ^ (- e)) (Zpos d)) (Z.to_pos (2 ^ (- e)))).

Definition round64 (x : Q) : Q :=
  match Qnum x with
  | Z0 => 0%Q
  | Zpos n => round_pos n (Qden x)
  | Zneg n => Qopp (round_pos n (Qden x))
  end.

(** The doubles end below [2 ^ 1024]: what rounds to that or beyond is an
    infinity. *)
Definition overflows (x : Q) : bool :=
  Qle_bool (inject_Z (2 ^ 1024)) x || Qle_bool x (inject_Z (- 2 ^ 1024)).

(** [a + b] on doubles, for the sum [a] so far and a finite [b]. A sum that
    has left the doubles is an infinity and stays one, whatever finite
    value is added to it. *)
Definition double_add (a b : Q) : Q :=
  if overflows a then a else round64 (a + b).

(** [SUM] over REAL values as SQLite computes it up to version 3.43: the
    values are added to 0.0 one after the other, in the order of the rows.
    (From 3.44 on SQLite adds a compensation term.) *)
Definition sum_amounts (l : list Q) : Q := fold_left double_add l 0%Q.

(** [SUM(amount)]: NULL over no rows. *)
Definition sql_sum (l : list Q) : option Q :=
  match l with
  | [] => None
  | _ :: _ => Some (sum_amounts l)
  end.

(** Equality of two values inside a UNIQUE constraint. In SQLite, "for the
    purposes of UNIQUE constraints, NULL values are considered distinct from
    all other values, including other NULLs". *)
Definition unique_eq (a b : option Z) : bool :=
  match a, b with
  | Some x, Some y => x =? y
  | _, _ => false
  end.

(** [WHERE user_id IS NULL OR user_id = ?]. *)
Definition is_global (r : category_row) : bool :=
  match cat_user_id r with
  | None => true
  | Some _ => false
  end.

Definition owned_by (uid : Z) (r : category_row) : bool :=
  match cat_user_id r with
  | None => false
  | Some u => u =? uid
  end.

(** [ORDER BY]: a stable insertion sort, rows with equal keys keep their
    rowid order. *)
Fixpoint insert_by {A : Type} (le : A -> A -> bool) (x : A) (l : list A) : list A :=
  match l with
  | [] => [x]
  | y :: l' => if le x y then x :: l else y :: insert_by le x l'
  end.

Definition order_by {A : Type} (le : A -> A -> bool) (l : list A) : list A :=
  fold_right (insert_by le) [] l.

(** [DISTINCT] keys of a GROUP BY, first occurrence first. *)
Fixpoint distinct (l : list string) : list string :=
  match l with
  | [] => []
  | x :: l' => x :: filter (fun y => negb (String.eqb y x)) (distinct l')
  end.

(** ** Python string formatting: [f"{z:0<width>d}"] *)

Definition decimal_digits (n : N) : string :=
  NilZero.string_of_uint (N.to_uint n).

Fixpoint zeros (k : nat) : string :=
  match k with
  | O => EmptyString
  | S k' => String "0" (zeros k')
  end.

Definition zfill (width : nat) (s : string) : string :=
  (zeros (width - String.length s) ++ s)%string.

(** The sign counts in the width: [f"{-5:04d}"] is ["-005"]. *)
Definition format_d (width : nat) (z : Z) : string :=
  match z with
  | Zneg p => String "-" (zfill (width - 1) (decimal_digits (Npos p)))
  | _ => zfill width (decimal_digits (Z.to_N z))
  end.

(** The two bounds computed at the top of [get_monthly_total] and of
    [get_category_summary]. *)
Definition period_start (year month : Z) : string :=
  (format_d 4 year ++ "-" ++ format_d 2 month ++ "-01")%string.

Definition period_end (year month : Z) : string :=
  if month =? 12
  then (format_d 4 (year + 1) ++ "-01-01")%string
  else (format_d 4 year ++ "-" ++ format_d 2 (month + 1) ++ "-01")%string.

(** [WHERE user_id=? AND date>=? AND date<?]. *)
Definition in_period (uid : Z) (lo hi : string) (r : expense_row) : bool :=
  (exp_user_id r =? uid) && String.leb lo (exp_date r) && String.ltb (exp_date r) hi.

(** ** class DB *)

Module DB.

(** [INSERT INTO categories (name, user_id) VALUES (?,?)] under
    [UNIQUE(name, user_id)]. *)
Definition insert_category (name : string) (uid : option Z) (d : db) : result db :=
  if existsb (fun r => String.eqb (cat_name r) name && unique_eq (cat_user_id r) uid)
             (categories d)
  then Raised IntegrityError
  else Ok (mkDb (users d) (users_seq d)
                (categories d ++ [mkCategory (categories_seq d + 1) name uid])
                (categories_seq d + 1)
                (expenses d) (expenses_seq d)).

Definition defaults : list string :=
  ["Food"; "Transport"; "Shopping"; "Bills"; "Entertainment"; "Other"]%string.

(** The three [CREATE TABLE IF NOT EXISTS] keep an existing table as it is;
    then the loop over [defaults], each insert in its own [try]. *)
Definition create_tables (d : db) : db :=
  fold_left (fun d cat =>
               match insert_category cat None d with
               | Ok d' => d'
               | Raised IntegrityError => d
               end)
            defaults d.

Section Credentials.

(** [hashlib.sha256(password.encode()).hexdigest()]. *)
Variable sha256_hexdigest : string -> string.

(** [INSERT INTO users (username, password_hash) VALUES (?,?)] under
    [username TEXT UNIQUE]; [budget] takes its DEFAULT 0. *)
Definition insert_user (name pw_hash : string) (d : db) : result db :=
  if existsb (fun r => String.eqb (usr_username r) name) (users d)
  then Raised IntegrityError
  else Ok (mkDb (users d ++ [mkUser (users_seq d + 1) name pw_hash 0%Q])
                (users_seq d + 1)
                (categories d) (categories_seq d)
                (expenses d) (expenses_seq d)).

Definition add_user (name password : string) (d : db) : bool * db :=
  let pw_hash := sha256_hexdigest password in
  match insert_user name pw_hash d with
  | Ok d' => (true, d')
  | Raised IntegrityError => (false, d)
  end.

(** [fetchone] of [SELECT * FROM users WHERE username = ? AND password_hash = ?]. *)
Definition authenticate (name password : string) (d : db) : option user_row :=
  let pw_hash := sha256_hexdigest password in
  find (fun r => String.eqb (usr_username r) name && String.eqb (usr_password_hash r) pw_hash)
       (users d).

End Credentials.

Definition set_budget (uid : Z) (amount : Q) (d : db) : db :=
  mkDb (map (fun r => if usr_id r =? uid
                      then mkUser (usr_id r) (usr_username r) (usr_password_hash r) amount
                      else r)
            (users d))
       (users_seq d) (categories d) (categories_seq d) (expenses d) (expenses_seq d).

Definition get_budget (uid : Z) (d : db) : Q :=
  match find (fun r => usr_id r =? uid) (users d) with
  | Some row => usr_budget row
  | None => 0%Q
  end.

Definition add_category (name : string) (uid : option Z) (d : db) : bool * db :=
  match insert_category name uid d with
  | Ok d' => (true, d')
  | Raised IntegrityError => (false, d)
  end.

Definition get_categories (uid : option Z) (d : db) : list string :=
  let rows :=
    match uid with
    | None => filter is_global (categories d)
    | Some u => filter (fun r => is_global r || owned_by u r) (categories d)
    end in
  map cat_name (order_by (fun r1 r2 => String.leb (cat_name r1) (cat_name r2)) rows).

(** No constraint of the table can fail on these values: the statement
    returns. *)
Definition add_expense (uid : Z) (amount : Q) (category description date : string)
    (d : db) : result db :=
  Ok (mkDb (users d) (users_seq d) (categories d) (categories_seq d)
           (expenses d ++ [mkExpense (expenses_seq d + 1) uid amount category description date])
           (expenses_seq d + 1)).

(** [UPDATE expenses SET ... WHERE id=?]: every row with that id, no row when
    there is none; the row count of the cursor is not read. *)
Definition update_expense (eid : Z) (amount : Q) (category description date : string)
    (d : db) : result db :=
  Ok (mkDb (users d) (users_seq d) (categories d) (categories_seq d)
           (map (fun r => if exp_id r =? eid
                          then mkExpense (exp_id r) (exp_user_id r) amount category description date
                          else r)
                (expenses d))
           (expenses_seq d)).

Definition delete_expense (eid : Z) (d : db) : result db :=
  Ok (mkDb (users d) (users_seq d) (categories d) (categories_seq d)
           (filter (fun r => negb (exp_id r =? eid)) (expenses d))
           (expenses_seq d)).

Definition get_expenses (uid : Z) (d : db) : list expense_row :=
  order_by (fun r1 r2 => String.leb (exp_date r2) (exp_date r1))
           (filter (fun r => exp_user_id r =? uid) (expenses d)).

Definition get_monthly_total (uid year month : Z) (d : db) : Q :=
  let start := period_start year month in
  let end_ := period_end year month in
  match sql_sum (map exp_amount (filter (in_period uid start end_) (expenses d))) with
  | Some total => total
  | None => 0%Q
  end.

(** [GROUP BY category]: one row per category that occurs among the selected
    rows, with the sum over that group. SQL leaves the order of the groups
    open; they are listed by first occurrence. *)
Definition get_category_summary (uid year month : Z) (d : db) : list (string * Q) :=
  let start := period_start year month in
  let end_ := period_end year month in
  let rows := filter (in_period uid start end_) (expenses d) in
  map (fun c => (c, sum_amounts (map exp_amount
                                    (filter (fun r => String.eqb (exp_category r) c) rows))))
      (distinct (map exp_category rows)).

End DB.

(** ** The Python built-ins the handler calls

    [str.strip], [float] and [datetime.strptime(_, '%Y-%m-%d')], on strings of
    ASCII characters. *)

Module Py.

Definition code (c : ascii) : N := N_of_ascii c.

(** [str.isspace] on the ASCII range: TAB..CR, FS..US and the space. *)
Definition isspace (c : ascii) : bool :=
  ((9 <=? code c) && (code c <=? 13) || (28 <=? code c) && (code c <=? 32))%N.

Definition isdigit (c : ascii) : bool :=
  ((48 <=? code c) && (code c <=? 57))%N.

Definition digit_value (c : ascii) : N := (code c - 48)%N.

Definition lower (c : ascii) : ascii :=
  if ((65 <=? code c) && (code c <=? 90))%N then ascii_of_N (code c + 32) else c.

Fixpoint lstrip (l : list ascii) : list ascii :=
  match l with
  | c :: l' => if isspace c then lstrip l' else l
  | [] => []
  end.

Definition strip (s : string) : string :=
  string_of_list_ascii (rev (lstrip (rev (lstrip (list_ascii_of_string s))))).

(** The white space that [float] skips at both ends of an ASCII text: the
    six characters of C's [isspace]. *)
Definition c_isspace (c : ascii) : bool :=
  ((9 <=? code c) && (code c <=? 13) || (code c =? 32))%N.

Fixpoint lstrip_c (l : list ascii) : list ascii :=
  match l with
  | c :: l' => if c_isspace c then lstrip_c l' else l
  | [] => []
  end.

(** *** float(s) *)

Inductive pyfloat : Type :=
| Finite (q : Q)
| NonFinite.

(** The digits after the first one of a [digitpart]: an underscore is taken
    only between two digits. *)
Fixpoint digitpart_rest (l : list ascii) : list N * list ascii :=
  match l with
  | c :: l' =>
      if isdigit c then
        let '(ds, r) := digitpart_rest l' in (digit_value c :: ds, r)
      else if Ascii.eqb c "_" then
        match l' with
        | c2 :: _ => if isdigit c2 then digitpart_rest l' else ([], l)
        | [] => ([], l)
        end
      else ([], l)
  | [] => ([], [])
  end.

Definition digitpart (l : list ascii) : option (list N * list ascii) :=
  match l with
  | c :: l' =>
      if isdigit c then
        let '(ds, r) := digitpart_rest l' in Some (digit_value c :: ds, r)
      else None
  | [] => None
  end.

Definition number_of_digits (ds : list N) : N :=
  fold_left (fun acc d => (10 * acc + d)%N) ds 0%N.

Definition sign (l : list ascii) : bool * list ascii :=
  match l with
  | c :: l' =>
      if Ascii.eqb c "-" then (true, l')
      else if Ascii.eqb c "+" then (false, l')
      else (false, l)
  | [] => (false, [])
  end.

(** [mantissa * 10 ^ e], exactly. *)
Definition scale (mantissa : N) (e : Z) : Q :=
  match e with
  | Zneg p => Qmake (Z.of_N mantissa) (Pos.pow 10 p)
  | _ => inject_Z (Z.of_N mantissa * 10 ^ e)
  end.

(** The optional exponent, up to the end of the text. *)
Definition exponent (l : list ascii) : option Z :=
  match l with
  | [] => Some 0
  | c :: l' =>
      if Ascii.eqb (lower c) "e" then
        let '(neg, l'') := sign l' in
        match digitpart l'' with
        | Some (ds, []) =>
            let e := Z.of_N (number_of_digits ds) in
            Some (if neg then - e else e)
        | _ => None
        end
      else None
  end.

(** [digitpart], [digitpart "."], [digitpart "." digitpart] or
    ["." digitpart], then the exponent. *)
Definition floatnumber (l : list ascii) : option Q :=
  let '(ipart, r) :=
    match digitpart l with
    | Some (ds, r) => (ds, r)
    | None => ([], l)
    end in
  let '(fpart, r') :=
    match r with
    | c :: r0 =>
        if Ascii.eqb c "." then
          match digitpart r0 with
          | Some (fs, r1) => (fs, r1)
          | None => ([], r0)
          end
        else ([], r)
    | [] => ([], r)
    end in
  match ipart ++ fpart with
  | [] => None
  | ds =>
      match exponent r' with
      | Some e => Some (scale (number_of_digits ds) (e - Z.of_nat (List.length fpart)))
      | None => None
      end
  end.

Definition nonfinite_spelling (l : list ascii) : bool :=
  let w := string_of_list_ascii (map lower l) in
  String.eqb w "inf" || String.eqb w "infinity" || String.eqb w "nan".

(** [None] stands for the [ValueError]. The value of a literal is the double
    nearest to its decimal value, an infinity when that is out of range. *)
Definition float (s : string) : option pyfloat :=
  let l := rev (lstrip_c (rev (lstrip_c (list_ascii_of_string s)))) in
  let '(neg, u) := sign l in
  if nonfinite_spelling u then Some NonFinite
  else
    match floatnumber u with
    | Some q =>
        let x := round64 (if neg then Qopp q else q) in
        Some (if overflows x then NonFinite else Finite x)
    | None => None
    end.

(** *** datetime.strptime(s, '%Y-%m-%d')

    [_strptime] turns the format into the regular expression
    [(?P<Y>\d\d\d\d)-(?P<m>1[0-2]|0[1-9]|[1-9])-(?P<d>3[01]|[12]\d|0[1-9]|[1-9]| [1-9])],
    matches it at the start of the text, refuses text left over, and builds
    the date. A parser is the list of its matches in the order in which the
    regular expression engine tries them. *)

Definition parser (A : Type) : Type := list ascii -> list (A * list ascii).

Definition ret {A : Type} (a : A) : parser A := fun l => [(a, l)].

Definition bind {A B : Type} (p : parser A) (k : A -> parser B) : parser B :=
  fun l => flat_map (fun '(a, r) => k a r) (p l).

Definition alt {A : Type} (ps : list (parser A)) : parser A :=
  fun l => flat_map (fun p => p l) ps.

Definition char_if (ok : ascii -> bool) : parser ascii :=
  fun l =>
    match l with
    | c :: l' => if ok c then [(c, l')] else []
    | [] => []
    end.

Definition between (lo hi : ascii) (c : ascii) : bool :=
  ((code lo <=? code c) && (code c <=? code hi))%N.

Definition digit_in (lo hi : ascii) : parser N :=
  bind (char_if (between lo hi)) (fun c => ret (digit_value c)).

Definition literal (c : ascii) : parser unit :=
  bind (char_if (Ascii.eqb c)) (fun _ => ret tt).

Definition two (p q : parser N) : parser N :=
  bind p (fun a => bind q (fun b => ret (10 * a + b)%N)).

Definition directive_Y : parser N :=
  bind (digit_in "0" "9") (fun a =>
  bind (digit_in "0" "9") (fun b =>
  bind (digit_in "0" "9") (fun c =>
  bind (digit_in "0" "9") (fun d =>
  ret (1000 * a + 100 * b + 10 * c + d)%N)))).

Definition directive_m : parser N :=
  alt [ two (digit_in "1" "1") (digit_in "0" "2");
        two (digit_in "0" "0") (digit_in "1" "9");
        digit_in "1" "9" ].

Definition directive_d : parser N :=
  alt [ two (digit_in "3" "3") (digit_in "0" "1");
        two (digit_in "1" "2") (digit_in "0" "9");
        two (digit_in "0" "0") (digit_in "1" "9");
        digit_in "1" "9";
        bind (literal " ") (fun _ => digit_in "1" "9") ].

Definition format_regex : parser (N * N * N) :=
  bind directive_Y (fun y =>
  bind (literal "-") (fun _ =>
  bind directive_m (fun m =>
  bind (literal "-") (fun _ =>
  bind directive_d (fun d =>
  ret (y, m, d)))))).

Definition is_leap (y : N) : bool :=
  ((y mod 4 =? 0) && (negb (y mod 100 =? 0) || (y mod 400 =? 0)))%N.

Definition days_in_month (y m : N) : N :=
  (if m =? 2 then (if is_leap y then 29 else 28)
   else if (m =? 4) || (m =? 6) || (m =? 9) || (m =? 11) then 30
   else 31)%N.

(** [None] stands for the [ValueError]: no match, unconverted data, or a
    date that [datetime] refuses (year 0, day past the end of the month). *)
Definition strptime (s : string) : option (N * N * N) :=
  match format_regex (list_ascii_of_string s) with
  | ((y, m, d), []) :: _ =>
      if ((1 <=? y) && (d <=? days_in_month y m))%N then Some (y, m, d) else None
  | _ => None
  end.

End Py.

(** ** class MainApp *)

Module MainApp.

(** The variables of the form that [add_expense] reads. *)
Record form : Type := mkForm {
  amount_var : string;
  category_var : string;
  date_var : string;
  desc_var : string;
  year_var : Z;
  month_var : Z
}.

(** What the user sees of one click on "Add Expense". [DrawRaised]: the
    expense is committed, [draw_summary] raised and the handler ended before
    the budget alert. *)
Inductive outcome : Type :=
| ShowError (message : string)
| Added (d : db) (budget_warning : bool)
| DrawRaised (d : db)
| Raises (e : exn)
| NonFiniteAmount.

(** [if budget > 0 and total > budget]. *)
Definition budget_alert (total budget : Q) : bool :=
  Qlt_bool 0 budget && Qlt_bool budget total.

Section Display.

(** Whether [ax.pie(vals, ...)] or the [canvas.draw()] after it raises for
    these wedge sizes. That is matplotlib's doing: a parameter. *)
Variable pie_raises : list Q -> bool.

(** [draw_summary] as far as it can raise: the pie is drawn only [if vals];
    the label of total and budget follows it and does not raise. *)
Definition draw_summary_raises (user_id year month : Z) (d : db) : bool :=
  let rows := DB.get_category_summary user_id year month d in
  let vals := map snd rows in
  match vals with
  | [] => false
  | _ :: _ => pie_raises vals
  end.

(** After the insert come [clear_form] and [refresh_expenses], which do not
    raise, and [draw_summary]; then the budget alert. *)
Definition add_expense (user_id : Z) (f : form) (d : db) : outcome :=
  match Py.float (amount_var f) with
  | None => ShowError "Enter valid amount"
  | Some amt =>
      let cat := if String.eqb (Py.strip (category_var f)) "" then "Other"%string
                 else Py.strip (category_var f) in
      let date := Py.strip (date_var f) in
      match Py.strptime date with
      | None => ShowError "Date must be YYYY-MM-DD"
      | Some _ =>
          let desc := Py.strip (desc_var f) in
          match amt with
          | Py.NonFinite => NonFiniteAmount
          | Py.Finite a =>
              match DB.add_expense user_id a cat desc date d with
              | Raised e => Raises e
              | Ok d' =>
                  if draw_summary_raises user_id (year_var f) (month_var f) d'
                  then DrawRaised d'
                  else
                    let total := DB.get_monthly_total user_id (year_var f) (month_var f) d' in
                    let budget := DB.get_budget user_id d' in
                    Added d' (budget_alert total budget)
              end
          end
      end
  end.

End Display.

(** [refresh_expenses] fills the tree from [get_expenses]; of a tree item
    the handlers read back the first column, the id. The other columns are
    display text. *)
Definition refresh_expenses (user_id : Z) (d : db) : list Z :=
  map exp_id (DB.get_expenses user_id d).

(** What the user sees of a click on "Update Selected" or "Delete
    Selected". *)
Inductive edit_outcome : Type :=
| ShowInfo (message : string)
| EditError (message : string)
| Edited (d : db)
| Declined
| EditRaises (e : exn)
| EditNonFinite.

(** [selection] is the id in the selected tree item, if there is one. The
    outcome [Edited] is the committed state: [refresh_expenses] and
    [draw_summary] are the last calls of both handlers, nothing of the
    handler depends on them. *)
Definition update_selected (selection : option Z) (f : form) (d : db) : edit_outcome :=
  match selection with
  | None => ShowInfo "Select an expense to update"
  | Some exp_id =>
      match Py.float (amount_var f) with
      | None => EditError "Enter valid amount"
      | Some amt =>
          let cat := if String.eqb (Py.strip (category_var f)) "" then "Other"%string
                     else Py.strip (category_var f) in
          let date := Py.strip (date_var f) in
          match Py.strptime date with
          | None => EditError "Date must be YYYY-MM-DD"
          | Some _ =>
              let desc := Py.strip (desc_var f) in
              match amt with
              | Py.NonFinite => EditNonFinite
              | Py.Finite a =>
                  match DB.update_expense exp_id a cat desc date d with
                  | Raised e => EditRaises e
                  | Ok d' => Edited d'
                  end
              end
          end
      end
  end.

(** [confirm] is the answer to [askyesno('Confirm', ...)]. *)
Definition delete_selected (selection : option Z) (confirm : bool) (d : db) : edit_outcome :=
  match selection with
  | None => ShowInfo "Select an expense to delete"
  | Some exp_id =>
      if confirm then
        match DB.delete_expense exp_id d with
        | Raised e => EditRaises e
        | Ok d' => Edited d'
        end
      else Declined
  end.

(** [answer] is what [askstring] returns: [None] when the dialog is
    cancelled. The result is [None] when the handler returns at [if not
    name], else the [ok] of [DB.add_category]. *)
Definition add_category (user_id : Z) (answer : option string) (d : db) : option bool * db :=
  match answer with
  | None => (None, d)
  | Some name =>
      if String.eqb name "" then (None, d)
      else
        let '(ok, d') := DB.add_category (Py.strip name) (Some user_id) d in
        (Some ok, d')
  end.

End MainApp.

(** ** class LoginWindow *)

Module LoginWindow.

Inductive login_outcome : Type :=
| LoginMessage (text : string)
| OpenMainApp (user_id : Z) (username : string).

Inductive register_outcome : Type :=
| RegisterMessage (text : string)
| ShowSuccess
| ShowUsernameExists.

Section Handlers.

Variable sha256_hexdigest : string -> string.

Definition login (username password : string) (d : db) : login_outcome :=
  let u := Py.strip username in
  let p := Py.strip password in
  if String.eqb u "" || String.eqb p "" then LoginMessage "Enter username & password"
  else
    match DB.authenticate sha256_hexdigest u p d with
    | Some user => OpenMainApp (usr_id user) (usr_username user)
    | None => LoginMessage "Invalid credentials"
    end.

Definition register (username password : string) (d : db) : register_outcome * db :=
  let u := Py.strip username in
  let p := Py.strip password in
  if String.eqb u "" || String.eqb p "" then (RegisterMessage "Enter username & password", d)
  else
    let '(ok, d') := DB.add_user sha256_hexdigest u p d in
    if ok then (ShowSuccess, d') else (ShowUsernameExists, d').

End Handlers.

End LoginWindow.

(** * Specification vocabulary

    The notions that the properties below are stated with, and the example
    states and forms that they are evaluated on. *)

Local Open Scope string_scope.
Local Open Scope Z_scope.

(** ** States and tables *)

(** A small ledger used by the examples: one user, one expense. *)
Definition ledger_one : db :=
  mkDb [mkUser 1 "alice" "h" 0%Q] 1 [] 0
       [mkExpense 1 1 50%Q "Food" "lunch" "2024-03-15"] 1.

(** [username TEXT UNIQUE], as a property of the table. *)
Definition unique_usernames (d : db) : Prop :=
  NoDup (map usr_username (users d)).

(** The relation that a boolean comparison decides. *)
Definition holds {A : Type} (le : A -> A -> bool) (x y : A) : Prop := le x y = true.

(** Ascending in the byte order of the BINARY collation. *)
Definition ascending (l : list string) : Prop :=
  StronglySorted (holds String.leb) l.

(** The rows that [get_categories (Some uid)] selects. *)
Definition visible_to (uid : Z) (r : category_row) : bool :=
  is_global r || owned_by uid r.

(** One run of [create_tables], then user 1 adds a category of their own
    that is called like a global one. *)
Definition db_own_food : db :=
  snd (DB.add_category "Food" (Some 1) (DB.create_tables empty_db)).

(** The rows that both aggregation queries select. *)
Definition selected (uid year month : Z) (d : db) : list expense_row :=
  filter (in_period uid (period_start year month) (period_end year month)) (expenses d).

(** ** The aggregation period

    The date test of the two aggregation queries, on date texts: from the
    text of the first day of the month up to, and not including, the text of
    the first day of the next month, with the year carried over after
    December. *)

Definition iso_first_of_month (year month : Z) : string :=
  (format_d 4 year ++ "-" ++ format_d 2 month ++ "-" ++ format_d 2 1)%string.

Definition next_month (year month : Z) : Z * Z :=
  if month =? 12 then (year + 1, 1) else (year, month + 1).

Definition in_month (year month : Z) (date : string) : bool :=
  String.leb (iso_first_of_month year month) date
  && String.ltb date (iso_first_of_month (fst (next_month year month))
                                         (snd (next_month year month))).

(** ** The calendar month

    The period in the words of the specification, on calendar dates: a date
    lies in the month when it is not before the first day of the month and is
    before the first day of the next month, which after December is January 1
    of the next year. The date of a record is what [strptime] reads from its
    text. *)









(** ** Groups of the breakdown *)

(** The selected rows of one category: a group of [GROUP BY category]. *)
Definition group_rows (uid year month : Z) (d : db) (c : string) : list expense_row :=
  filter (fun r => String.eqb (exp_category r) c) (selected uid year month d).

(** The sum in exact arithmetic, for comparison with the rounded one. *)
Definition exact_sum (l : list Q) : Q := fold_right Qplus 0%Q l.

(** The double that an amount text is read as. *)
Definition amount_of (s : string) : Q :=
  match Py.float s with
  | Some (Py.Finite q) => q
  | _ => 0%Q
  end.

(** Three expenses of one user in March 2024: 50.0 and 13.3 for bills, 8.6
    for food in between. *)
Definition ledger_three : db :=
  mkDb [] 0 [] 0
       [mkExpense 1 1 (amount_of "50.0") "Bills" "" "2024-03-01";
        mkExpense 2 1 (amount_of "8.6") "Food" "" "2024-03-02";
        mkExpense 3 1 (amount_of "13.3") "Bills" "" "2024-03-03"] 3.

(** ** ISO calendar dates

    A syntactically valid calendar date in ISO form, in the words of the
    specification: four digits of year, two of month, two of day, separated
    by hyphens, naming a day that exists. *)

Definition digit_char (k : N) : ascii := ascii_of_N (48 + k).

Definition two_digits (n : N) : list ascii :=
  [digit_char (n / 10); digit_char (n mod 10)].

Definition four_digits (n : N) : list ascii :=
  [digit_char (n / 1000); digit_char (n / 100 mod 10);
   digit_char (n / 10 mod 10); digit_char (n mod 10)].

Definition iso_chars (y m d : N) : list ascii :=
  (four_digits y ++ "-"%char :: two_digits m ++ "-"%char :: two_digits d)%list.

Definition iso_text (y m d : N) : string := string_of_list_ascii (iso_chars y m d).

Definition calendar_date (y m d : N) : Prop :=
  (1 <= y <= 9999 /\ 1 <= m <= 12 /\ 1 <= d <= Py.days_in_month y m)%N.

Definition iso_calendar_date (s : string) : Prop :=
  exists y m d, calendar_date y m d /\ s = iso_text y m d.

(** ** Outcomes of [MainApp.add_expense] *)

(** The state that the click committed, if it stored an expense. *)
Definition committed (o : MainApp.outcome) : option db :=
  match o with
  | MainApp.Added d _ => Some d
  | MainApp.DrawRaised d => Some d
  | _ => None
  end.

(** The click stored an expense. *)
Definition accepted (o : MainApp.outcome) : Prop :=
  exists d', committed o = Some d'.

(** The check at the head of matplotlib's [pie]: "Wedge sizes 'x' must be non
    negative values". It stands for [pie_raises] in the examples. *)
Definition negative_wedge (vals : list Q) : bool :=
  existsb (fun v => Qlt_bool v 0) vals.


(** The category that is stored: the stripped text, ["Other"] when blank. *)
Definition category_or_other (s : string) : string :=
  if String.eqb (Py.strip s) "" then "Other" else Py.strip s.

(** The ledger after the insert of one validated form. *)
Definition with_expense (uid : Z) (amount : Q) (f : MainApp.form) (d : db) : db :=
  mkDb (users d) (users_seq d) (categories d) (categories_seq d)
       (expenses d ++
        [mkExpense (expenses_seq d + 1) uid amount
                   (category_or_other (MainApp.category_var f))
                   (Py.strip (MainApp.desc_var f))
                   (Py.strip (MainApp.date_var f))])
       (expenses_seq d + 1).


Definition form_blank_category : MainApp.form :=
  MainApp.mkForm " 12.50 " "  " "2024-03-15" " lunch " 2024 3.



(** ** Calendar reading of stored dates *)

(** A calendar date as one number, year first. *)
Definition date_key (y m d : N) : N := (y * 10000 + m * 100 + d)%N.

(** The numbers below [n], for checks by enumeration. *)
Definition upto (n : N) : list N := map N.of_nat (seq 0 (N.to_nat n)).

(** The year and month that [strptime] reads from a stored date. *)
Definition dated_in (year month : Z) (date : string) : bool :=
  match Py.strptime date with
  | Some (y, m, _) => (Z.of_N y =? year) && (Z.of_N m =? month)
  | None => false
  end.

(** ** Reachable states

    One call of a method of [DB], and the states that such calls produce
    from the empty database. *)

Inductive step (sha256_hexdigest : string -> string) : db -> db -> Prop :=
| step_create_tables d :
    step sha256_hexdigest d (DB.create_tables d)
| step_add_user name password d :
    step sha256_hexdigest d (snd (DB.add_user sha256_hexdigest name password d))
| step_set_budget uid amount d :
    step sha256_hexdigest d (DB.set_budget uid amount d)
| step_add_category name uid d :
    step sha256_hexdigest d (snd (DB.add_category name uid d))
| step_add_expense uid amount category description date d d' :
    DB.add_expense uid amount category description date d = Ok d' ->
    step sha256_hexdigest d d'
| step_update_expense eid amount category description date d d' :
    DB.update_expense eid amount category description date d = Ok d' ->
    step sha256_hexdigest d d'
| step_delete_expense eid d d' :
    DB.delete_expense eid d = Ok d' ->
    step sha256_hexdigest d d'.

Inductive reachable (sha256_hexdigest : string -> string) : db -> Prop :=
| reachable_empty : reachable sha256_hexdigest empty_db
| reachable_step d d' :
    reachable sha256_hexdigest d -> step sha256_hexdigest d d' ->
    reachable sha256_hexdigest d'.

(** Usernames are unique; expense ids are distinct and at most the
    AUTOINCREMENT counter. *)
Definition db_invariant (d : db) : Prop :=
  unique_usernames d
  /\ NoDup (map exp_id (expenses d))
  /\ Forall (fun r => exp_id r <= expenses_seq d) (expenses d).

(** ** Vocabulary of the further properties *)

(** The rows of a user, as [WHERE user_id=?] selects them. *)
Definition owned_expenses (uid : Z) (d : db) : list expense_row :=
  filter (fun r => exp_user_id r =? uid) (expenses d).

(** Newest date first. *)
Definition newest_first (l : list expense_row) : Prop :=
  StronglySorted (fun r1 r2 => String.leb (exp_date r2) (exp_date r1) = true) l.

(** The row that [set_budget] writes in place of [r]. *)
Definition with_budget (amount : Q) (r : user_row) : user_row :=
  mkUser (usr_id r) (usr_username r) (usr_password_hash r) amount.

(** The user already has a category row of that name. *)
Definition has_category (name : string) (uid : Z) (d : db) : Prop :=
  exists r, In r (categories d) /\ cat_name r = name /\ cat_user_id r = Some uid.

(** The row that [update_expense] writes in place of [r]. *)
Definition with_fields (amount : Q) (category description date : string)
    (r : expense_row) : expense_row :=
  mkExpense (exp_id r) (exp_user_id r) amount category description date.

(** The three queries of a user give the same on both states. *)
Definition same_view (a : Z) (d d' : db) : Prop :=
  DB.get_expenses a d' = DB.get_expenses a d
  /\ forall year month : Z,
       DB.get_monthly_total a year month d' = DB.get_monthly_total a year month d
       /\ DB.get_category_summary a year month d' = DB.get_category_summary a year month d.

(** Primary keys and UNIQUE constraints of the users and categories tables:
    ids are distinct and at most the AUTOINCREMENT counter, and no user owns
    two categories of the same name. *)
Definition keys_invariant (d : db) : Prop :=
  NoDup (map usr_id (users d))
  /\ Forall (fun r => usr_id r <= users_seq d) (users d)
  /\ NoDup (map cat_id (categories d))
  /\ Forall (fun r => cat_id r <= categories_seq d) (categories d)
  /\ forall uid, NoDup (map cat_name (filter (owned_by uid) (categories d))).

(** The periods whose two bounds are four-digit ISO texts. *)
Definition valid_period (year month : Z) : Prop :=
  0 <= year <= 9999 /\ 1 <= month <= 12 /\ (year, month) <> (9999, 12).

(** * Properties *)

(** ** Shared facts *)

Lemma Qlt_bool_iff (a b : Q) : Qlt_bool a b = true <-> (a < b)%Q.
Proof.
  unfold Qlt_bool. rewrite negb_true_iff.
  split; intro H.
  - apply Qnot_le_lt. intro Hle. apply Qle_bool_iff in Hle. congruence.
  - destruct (Qle_bool b a) eqn:E; [|reflexivity].
    apply Qle_bool_iff in E. exfalso. exact (Qlt_not_le _ _ H E).
Qed.

Lemma filter_all {A : Type} (p : A -> bool) (l : list A) :
  (forall x, In x l -> p x = true) -> filter p l = l.
Proof.
  induction l as [|x l IH]; intros H; simpl; [reflexivity|].
  rewrite (H x (or_introl eq_refl)). f_equal. apply IH.
  intros y Hy. apply H. right. exact Hy.
Qed.


Lemma filter_idem {A : Type} (p : A -> bool) (l : list A) :
  filter p (filter p l) = filter p l.
Proof.
  apply filter_all. intros x Hx. apply filter_In in Hx. tauto.
Qed.

Lemma map_unchanged {A : Type} (f : A -> A) (l : list A) :
  (forall x, In x l -> f x = x) -> map f l = l.
Proof.
  induction l as [|x l IH]; intros H; simpl; [reflexivity|].
  rewrite (H x (or_introl eq_refl)). f_equal. apply IH.
  intros y Hy. apply H. right. exact Hy.
Qed.

(** ** Budget policy *)

(** C1: the alert is raised exactly when the budget is positive and the total
    is strictly above it; a budget of 0 never alerts and a total equal to the
    budget does not alert. The three sample evaluations of the specification
    are the last three conjuncts. *)
Theorem budget_alert_iff : forall total budget : Q,
  (MainApp.budget_alert total budget = true <-> (0 < budget)%Q /\ (budget < total)%Q)
  /\ MainApp.budget_alert total 0%Q = false
  /\ MainApp.budget_alert budget budget = false
  /\ MainApp.budget_alert 100%Q 0%Q = false
  /\ MainApp.budget_alert 100%Q 100%Q = false
  /\ MainApp.budget_alert 100.01%Q 100%Q = true.
Proof.
  intros total budget. unfold MainApp.budget_alert.
  split; [|split; [|split; [|repeat split]]].
  - rewrite andb_true_iff, !Qlt_bool_iff. reflexivity.
  - reflexivity.
  - destruct (Qlt_bool budget budget) eqn:E.
    + apply Qlt_bool_iff in E. exfalso. exact (Qlt_irrefl _ E).
    + apply andb_false_r.
Qed.

(** ** Expense ledger *)

(** C8: deleting an absent record changes nothing and raises nothing, and a
    second delete of the same id leaves the state the first delete produced. *)
Theorem delete_expense_idempotent : forall (eid : Z) (d : db),
  ((forall r, In r (expenses d) -> exp_id r <> eid) -> DB.delete_expense eid d = Ok d)
  /\ exists d1, DB.delete_expense eid d = Ok d1 /\ DB.delete_expense eid d1 = Ok d1.
Proof.
  intros eid d. split.
  - intros Habs. unfold DB.delete_expense. destruct d as [us useq cs cseq es eseq].
    simpl in *. rewrite filter_all; [reflexivity|].
    intros r Hr. apply negb_true_iff, Z.eqb_neq. exact (Habs r Hr).
  - eexists. split; [reflexivity|].
    unfold DB.delete_expense. simpl. rewrite filter_idem. reflexivity.
Qed.

Lemma delete_expense_idempotent_witness :
  DB.delete_expense 2 ledger_one = Ok ledger_one.
Proof.
  apply (proj1 (delete_expense_idempotent 2 ledger_one)).
  intros r [<-|[]]. simpl. lia.
Defined.

(** C6 as stated fails: an update of an id that is not in the ledger raises
    nothing. *)
Lemma update_expense_missing_not_raised :
  ~ (forall (eid : Z) (amount : Q) (category description date : string) (d : db),
        (forall r, In r (expenses d) -> exp_id r <> eid) ->
        is_raised (DB.update_expense eid amount category description date d) = true).
Proof.
  intros H.
  specialize (H 2 30%Q "Bills" "rent" "2024-04-01" ledger_one).
  simpl in H. discriminate H.
  intros r [<-|[]]. simpl. lia.
Qed.

(** C6, amended: an update always returns; when the id is absent the state is
    unchanged; when it is present the four fields of each row with that id
    are replaced, its id and owner kept, and every other row and table is
    left as it was. *)
Theorem update_expense_spec :
  forall (eid : Z) (amount : Q) (category description date : string) (d : db),
  exists d',
    DB.update_expense eid amount category description date d = Ok d'
    /\ ((forall r, In r (expenses d) -> exp_id r <> eid) -> d' = d)
    /\ users d' = users d /\ categories d' = categories d
    /\ forall (n : nat) (r : expense_row),
         nth_error (expenses d) n = Some r ->
         nth_error (expenses d') n =
           Some (if exp_id r =? eid
                 then mkExpense (exp_id r) (exp_user_id r) amount category description date
                 else r).
Proof.
  intros eid amount category description date d.
  eexists. split; [reflexivity|]. simpl. repeat split.
  - intros Habs. destruct d as [us useq cs cseq es eseq]. simpl in *.
    f_equal. apply map_unchanged. intros r Hr.
    destruct (exp_id r =? eid) eqn:E; [|reflexivity].
    apply Z.eqb_eq in E. exfalso. exact (Habs r Hr E).
  - intros n r Hn. rewrite nth_error_map, Hn. reflexivity.
Qed.

Lemma update_expense_spec_witness :
  exists d',
    DB.update_expense 1 30%Q "Bills" "rent" "2024-04-01" ledger_one = Ok d'
    /\ nth_error (expenses d') 0 = Some (mkExpense 1 1 30%Q "Bills" "rent" "2024-04-01").
Proof.
  destruct (update_expense_spec 1 30%Q "Bills" "rent" "2024-04-01" ledger_one)
    as [d' [Hrun [_ [_ [_ Hrow]]]]].
  exists d'. split; [exact Hrun|].
  apply (Hrow 0%nat (mkExpense 1 1 50%Q "Food" "lunch" "2024-03-15")).
  reflexivity.
Defined.

(** ** Frame of [add_expense] *)

Lemma filter_snoc_out {A : Type} (p : A -> bool) (l : list A) (x : A) :
  p x = false -> filter p (l ++ [x]) = filter p l.
Proof.
  intros Hx. rewrite filter_app. simpl. rewrite Hx. apply app_nil_r.
Qed.

Lemma in_period_other_user (a b : Z) (lo hi : string) (r : expense_row) :
  a <> b -> exp_user_id r = b -> in_period a lo hi r = false.
Proof.
  intros Hab Hr. unfold in_period.
  assert (E : (exp_user_id r =? a) = false) by (apply Z.eqb_neq; congruence).
  rewrite E. reflexivity.
Qed.

(** A row appended for [b] is selected by none of the queries of [a]. *)
Lemma add_expense_other_user :
  forall (a b : Z) (amount : Q) (category description date : string) (d : db),
  a <> b ->
  exists d',
    DB.add_expense b amount category description date d = Ok d'
    /\ DB.get_expenses a d' = DB.get_expenses a d
    /\ forall year month : Z,
         DB.get_monthly_total a year month d' = DB.get_monthly_total a year month d
         /\ DB.get_category_summary a year month d' = DB.get_category_summary a year month d.
Proof.
  intros a b amount category description date d Hab.
  eexists. split; [reflexivity|]. split.
  - unfold DB.get_expenses. simpl. rewrite filter_snoc_out; [reflexivity|].
    simpl. apply Z.eqb_neq. congruence.
  - intros year month.
    unfold DB.get_monthly_total, DB.get_category_summary. simpl.
    rewrite filter_snoc_out by (apply in_period_other_user with (b := b); auto).
    split; reflexivity.
Qed.

(** C10: an expense added for user [b] leaves the expense list, every
    monthly total and every category breakdown of any other user [a] as they
    were. *)
Theorem add_expense_frame :
  forall (a b : Z) (amount : Q) (category description date : string) (d : db),
  a <> b ->
  exists d',
    DB.add_expense b amount category description date d = Ok d'
    /\ DB.get_expenses a d' = DB.get_expenses a d
    /\ forall year month : Z,
         DB.get_monthly_total a year month d' = DB.get_monthly_total a year month d
         /\ DB.get_category_summary a year month d' = DB.get_category_summary a year month d.
Proof. exact add_expense_other_user. Qed.

Lemma add_expense_frame_witness :
  exists d',
    DB.add_expense 2 30%Q "Bills" "rent" "2024-03-01" ledger_one = Ok d'
    /\ DB.get_expenses 1 d' = DB.get_expenses 1 ledger_one
    /\ forall year month : Z,
         DB.get_monthly_total 1 year month d' = DB.get_monthly_total 1 year month ledger_one
         /\ DB.get_category_summary 1 year month d'
            = DB.get_category_summary 1 year month ledger_one.
Proof.
  apply (add_expense_frame 1 2 30%Q "Bills" "rent" "2024-03-01" ledger_one). lia.
Defined.

(** The same frame for a click on "Add Expense" in the session of [b]. *)
Lemma MainApp_add_expense_frame :
  forall (pie_raises : list Q -> bool) (a b : Z) (f : MainApp.form) (d d' : db),
  a <> b ->
  committed (MainApp.add_expense pie_raises b f d) = Some d' ->
  DB.get_expenses a d' = DB.get_expenses a d
  /\ forall year month : Z,
       DB.get_monthly_total a year month d' = DB.get_monthly_total a year month d
       /\ DB.get_category_summary a year month d' = DB.get_category_summary a year month d.
Proof.
  intros pie_raises a b f d d' Hab Hrun. unfold MainApp.add_expense in Hrun.
  destruct (Py.float (MainApp.amount_var f)) as [[q|]|]; try discriminate.
  - destruct (Py.strptime (Py.strip (MainApp.date_var f))); try discriminate.
    match type of Hrun with
    | context [DB.add_expense ?u ?q0 ?c ?ds ?dt d] =>
        destruct (add_expense_other_user a u q0 c ds dt d Hab) as [d1 [E [H1 H2]]];
        rewrite E in Hrun
    end.
    destruct (MainApp.draw_summary_raises _ _ _ _ d1); simpl in Hrun;
      inversion Hrun; subst; split; assumption.
  - destruct (Py.strptime (Py.strip (MainApp.date_var f))); discriminate.
Qed.

(** ** Credential store *)

Lemma find_app {A : Type} (p : A -> bool) (l1 l2 : list A) :
  find p (l1 ++ l2) = match find p l1 with Some x => Some x | None => find p l2 end.
Proof.
  induction l1 as [|x l1 IH]; simpl; [reflexivity|].
  destruct (p x); [reflexivity|exact IH].
Qed.

Lemma find_unique_key {A K : Type} (key : A -> K) (p : A -> bool) (l : list A) (r : A) :
  NoDup (map key l) ->
  (forall x, p x = true -> key x = key r) ->
  In r l -> p r = true -> find p l = Some r.
Proof.
  intros Hnd Hkey. induction l as [|x l IH]; intros Hin Hr; [destruct Hin|].
  simpl in *. inversion Hnd as [|? ? Hnotin Hnd']; subst.
  destruct (p x) eqn:Hx.
  - destruct Hin as [->|Hin]; [reflexivity|].
    exfalso. apply Hnotin. rewrite (Hkey x Hx). apply in_map. exact Hin.
  - destruct Hin as [->|Hin]; [congruence|]. apply IH; assumption.
Qed.

Lemma find_none_all {A : Type} (p : A -> bool) (l : list A) :
  (forall x, In x l -> p x = false) -> find p l = None.
Proof.
  induction l as [|x l IH]; intros H; simpl; [reflexivity|].
  rewrite (H x (or_introl eq_refl)). apply IH. intros y Hy. apply H. right. exact Hy.
Qed.

Lemma existsb_false_forall {A : Type} (p : A -> bool) (l : list A) :
  existsb p l = false <-> forall x, In x l -> p x = false.
Proof.
  induction l as [|x l IH]; simpl.
  - split; [intros _ y []|reflexivity].
  - rewrite orb_false_iff, IH. split.
    + intros [Hx Hl] y [<-|Hy]; auto.
    + intros H. split; [apply H; left; reflexivity|intros y Hy; apply H; right; exact Hy].
Qed.

Section CredentialStore.

Variable sha256_hexdigest : string -> string.

Lemma add_user_taken (u s : string) (d : db) :
  (exists r, In r (users d) /\ usr_username r = u) ->
  DB.add_user sha256_hexdigest u s d = (false, d).
Proof.
  intros [r [Hin Hu]]. unfold DB.add_user, DB.insert_user.
  assert (E : existsb (fun r => String.eqb (usr_username r) u) (users d) = true).
  { apply existsb_exists. exists r. split; [exact Hin|]. apply String.eqb_eq. exact Hu. }
  rewrite E. reflexivity.
Qed.

Lemma add_user_fresh (u s : string) (d : db) :
  (forall r, In r (users d) -> usr_username r <> u) ->
  DB.add_user sha256_hexdigest u s d =
    (true, mkDb (users d ++ [mkUser (users_seq d + 1) u (sha256_hexdigest s) 0%Q])
                (users_seq d + 1) (categories d) (categories_seq d)
                (expenses d) (expenses_seq d)).
Proof.
  intros Hfresh. unfold DB.add_user, DB.insert_user.
  assert (E : existsb (fun r => String.eqb (usr_username r) u) (users d) = false).
  { apply existsb_false_forall. intros r Hr. apply String.eqb_neq. exact (Hfresh r Hr). }
  rewrite E. reflexivity.
Qed.

Lemma authenticate_sound (u s : string) (d : db) (r : user_row) :
  DB.authenticate sha256_hexdigest u s d = Some r ->
  In r (users d) /\ usr_username r = u /\ usr_password_hash r = sha256_hexdigest s.
Proof.
  unfold DB.authenticate. intros Hf.
  apply find_some in Hf. destruct Hf as [Hin Hp].
  apply andb_true_iff in Hp. destruct Hp as [Hu Hh].
  apply String.eqb_eq in Hu. apply String.eqb_eq in Hh. auto.
Qed.

Lemma authenticate_complete (u s : string) (d : db) (r : user_row) :
  unique_usernames d ->
  In r (users d) -> usr_username r = u -> usr_password_hash r = sha256_hexdigest s ->
  DB.authenticate sha256_hexdigest u s d = Some r.
Proof.
  intros Hnd Hin Hu Hh. unfold DB.authenticate.
  apply find_unique_key with (key := usr_username); auto.
  - intros x Hx. apply andb_true_iff in Hx. destruct Hx as [Hx _].
    apply String.eqb_eq in Hx. congruence.
  - rewrite Hu, Hh, !String.eqb_refl. reflexivity.
Qed.

Lemma add_user_unique (u s : string) (d : db) :
  unique_usernames d -> unique_usernames (snd (DB.add_user sha256_hexdigest u s d)).
Proof.
  intros Hnd. unfold DB.add_user, DB.insert_user.
  destruct (existsb _ (users d)) eqn:E; simpl; [exact Hnd|].
  unfold unique_usernames. simpl. rewrite map_app. simpl.
  apply NoDup_app_remove_l with (l := []). simpl.
  apply Permutation_NoDup with (l := u :: map usr_username (users d)).
  - apply Permutation_cons_append.
  - constructor; [|exact Hnd].
    intros Hin. apply in_map_iff in Hin. destruct Hin as [r [Hr Hin]].
    rewrite existsb_false_forall in E. specialize (E r Hin).
    apply String.eqb_neq in E. contradiction.
Qed.

(** C9: registering a taken name returns [False] and changes nothing;
    registering a fresh name appends a user with the digest of the secret and
    budget 0; [authenticate] returns a row exactly when that row is in the
    table with that name and the digest of the supplied secret; so after a
    successful registration the same secret authenticates as the new user and
    a secret with another digest is refused. *)
Theorem register_authenticate : forall (u s : string) (d : db),
  unique_usernames d ->
  ((exists r, In r (users d) /\ usr_username r = u) -> DB.add_user sha256_hexdigest u s d = (false, d))
  /\ (forall s' r,
        DB.authenticate sha256_hexdigest u s' d = Some r <->
        In r (users d) /\ usr_username r = u /\ usr_password_hash r = sha256_hexdigest s')
  /\ ((forall r, In r (users d) -> usr_username r <> u) ->
      exists d',
        let new := mkUser (users_seq d + 1) u (sha256_hexdigest s) 0%Q in
        DB.add_user sha256_hexdigest u s d = (true, d')
        /\ users d' = (users d ++ [new])%list
        /\ DB.authenticate sha256_hexdigest u s d' = Some new
        /\ forall s', sha256_hexdigest s' <> sha256_hexdigest s ->
                      DB.authenticate sha256_hexdigest u s' d' = None).
Proof.
  intros u s d Hnd. split; [apply add_user_taken|]. split.
  - intros s' r. split.
    + apply authenticate_sound.
    + intros [Hin [Hu Hh]]. apply authenticate_complete; assumption.
  - intros Hfresh. eexists. cbv zeta.
    split; [apply add_user_fresh; exact Hfresh|]. simpl.
    split; [reflexivity|].
    assert (Hnone : forall s', find (fun r => String.eqb (usr_username r) u
                                    && String.eqb (usr_password_hash r) (sha256_hexdigest s'))
                                    (users d) = None).
    { intros s'. apply find_none_all. intros r Hr.
      apply andb_false_iff. left. apply String.eqb_neq. exact (Hfresh r Hr). }
    split.
    + unfold DB.authenticate. simpl.
      rewrite find_app, Hnone. simpl. rewrite !String.eqb_refl. reflexivity.
    + intros s' Hs'. unfold DB.authenticate. simpl.
      rewrite find_app, Hnone. simpl. rewrite String.eqb_refl. simpl.
      assert (E : String.eqb (sha256_hexdigest s) (sha256_hexdigest s') = false)
        by (apply String.eqb_neq; congruence).
      rewrite E. reflexivity.
Qed.

End CredentialStore.

Lemma register_authenticate_witness :
  exists d',
    DB.add_user (fun s => s) "alice" "pw1" empty_db = (true, d')
    /\ DB.authenticate (fun s => s) "alice" "pw1" d' = Some (mkUser 1 "alice" "pw1" 0%Q)
    /\ DB.authenticate (fun s => s) "alice" "wrong" d' = None.
Proof.
  destruct (register_authenticate (fun s => s) "alice" "pw1" empty_db (NoDup_nil _))
    as [_ [_ Hfresh]].
  destruct Hfresh as [d' [Hadd [_ [Hsame Hother]]]].
  - intros r [].
  - exists d'. split; [exact Hadd|]. split; [exact Hsame|].
    apply Hother. discriminate.
Defined.

(** The scenario of the specification, for any digest that tells the two
    secrets apart. *)
Lemma register_scenario (sha256_hexdigest : string -> string) :
  sha256_hexdigest "wrong" <> sha256_hexdigest "pw1" ->
  let (ok1, d1) := DB.add_user sha256_hexdigest "alice" "pw1" empty_db in
  let (ok2, d2) := DB.add_user sha256_hexdigest "alice" "pw2" d1 in
  ok1 = true /\ ok2 = false /\ d2 = d1
  /\ option_map usr_id (DB.authenticate sha256_hexdigest "alice" "pw1" d2) = Some 1
  /\ DB.authenticate sha256_hexdigest "alice" "wrong" d2 = None.
Proof.
  intros Hne. simpl. repeat split.
  - unfold DB.authenticate. simpl. rewrite String.eqb_refl. reflexivity.
  - unfold DB.authenticate. simpl.
    assert (E : String.eqb (sha256_hexdigest "pw1") (sha256_hexdigest "wrong") = false)
      by (apply String.eqb_neq; congruence).
    rewrite E. reflexivity.
Qed.

(** ** Ordering of strings and [ORDER BY] *)

Lemma string_leb_trans (s1 s2 s3 : string) :
  String.leb s1 s2 = true -> String.leb s2 s3 = true -> String.leb s1 s3 = true.
Proof.
  unfold String.leb. revert s2 s3.
  induction s1 as [|a s1 IH]; intros [|b s2] [|c s3]; simpl; try congruence.
  unfold Ascii.compare.
  destruct (N.compare_spec (N_of_ascii a) (N_of_ascii b)) as [Hab|Hab|Hab];
    destruct (N.compare_spec (N_of_ascii b) (N_of_ascii c)) as [Hbc|Hbc|Hbc];
    destruct (N.compare_spec (N_of_ascii a) (N_of_ascii c)) as [Hac|Hac|Hac];
    try congruence; try lia; try apply IH.
Qed.

Section OrderBy.

Context {A : Type}.
Variable le : A -> A -> bool.
Hypothesis le_total : forall x y, le x y = true \/ le y x = true.

Lemma insert_by_perm (x : A) (l : list A) : Permutation (insert_by le x l) (x :: l).
Proof.
  induction l as [|y l IH]; simpl; [reflexivity|].
  destruct (le x y); [reflexivity|].
  rewrite IH. apply perm_swap.
Qed.

Lemma order_by_perm (l : list A) : Permutation (order_by le l) l.
Proof.
  induction l as [|x l IH]; simpl; [reflexivity|].
  rewrite insert_by_perm. constructor. exact IH.
Qed.

Lemma insert_by_hd (x a : A) (l : list A) :
  holds le a x -> HdRel (holds le) a l -> HdRel (holds le) a (insert_by le x l).
Proof.
  intros Hax Hl. destruct l as [|y l]; simpl.
  - constructor. exact Hax.
  - destruct (le x y); constructor; [exact Hax|].
    inversion Hl; assumption.
Qed.

Lemma insert_by_sorted (x : A) (l : list A) :
  Sorted (holds le) l -> Sorted (holds le) (insert_by le x l).
Proof.
  induction 1 as [|y l Hs IH Hhd]; simpl.
  - repeat constructor.
  - destruct (le x y) eqn:E.
    + constructor; [constructor; assumption|]. constructor. exact E.
    + constructor; [exact IH|].
      apply insert_by_hd; [|exact Hhd].
      destruct (le_total x y) as [H|H]; [congruence|exact H].
Qed.

Lemma order_by_sorted (l : list A) : Sorted (holds le) (order_by le l).
Proof.
  induction l as [|x l IH]; simpl; [constructor|].
  apply insert_by_sorted. exact IH.
Qed.

End OrderBy.

Lemma Sorted_map {A B : Type} (f : A -> B) (R : B -> B -> Prop) (l : list A) :
  Sorted (fun x y => R (f x) (f y)) l -> Sorted R (map f l).
Proof.
  induction 1 as [|x l Hs IH Hhd]; simpl; constructor; [exact IH|].
  destruct Hhd; simpl; constructor. assumption.
Qed.

(** ** Category registry *)

(** C5 as stated fails: the name shared by a global and a user category is
    listed twice. *)
Lemma get_categories_repeats_shared_name :
  fst (DB.add_category "Food" (Some 1) (DB.create_tables empty_db)) = true
  /\ DB.get_categories (Some 1) db_own_food
     = ["Bills"; "Entertainment"; "Food"; "Food"; "Other"; "Shopping"; "Transport"]
  /\ ~ NoDup (DB.get_categories (Some 1) db_own_food).
Proof.
  split; [reflexivity|]. split; [reflexivity|].
  intros Hnd. change (DB.get_categories (Some 1) db_own_food)
    with ["Bills"; "Entertainment"; "Food"; "Food"; "Other"; "Shopping"; "Transport"] in Hnd.
  inversion Hnd as [|? ? _ Hnd1]; subst.
  inversion Hnd1 as [|? ? _ Hnd2]; subst.
  inversion Hnd2 as [|? ? Hnotin _]; subst.
  apply Hnotin. left. reflexivity.
Qed.

(** C5, amended: the list holds one entry for each category row that is
    global or owned by the user, so that its names are the union of the two
    name sets, in ascending byte order; a name stored in both scopes occurs
    once per row. *)
Theorem get_categories_spec : forall (uid : Z) (d : db),
  Permutation (DB.get_categories (Some uid) d)
              (map cat_name (filter (visible_to uid) (categories d)))
  /\ ascending (DB.get_categories (Some uid) d)
  /\ forall name,
       In name (DB.get_categories (Some uid) d) <->
       exists r, In r (categories d) /\ cat_name r = name
                 /\ (cat_user_id r = None \/ cat_user_id r = Some uid).
Proof.
  intros uid d.
  assert (Hperm : Permutation (DB.get_categories (Some uid) d)
                    (map cat_name (filter (visible_to uid) (categories d)))).
  { unfold DB.get_categories. apply Permutation_map. apply order_by_perm. }
  split; [exact Hperm|]. split.
  - unfold ascending, DB.get_categories.
    apply Sorted_StronglySorted.
    + intros x y z. apply string_leb_trans.
    + apply Sorted_map with (R := holds String.leb).
      apply order_by_sorted. intros x y. apply String.leb_total.
  - intros name. split.
    + intros Hin. apply (Permutation_in _ Hperm) in Hin.
      apply in_map_iff in Hin. destruct Hin as [r [Hname Hr]].
      apply filter_In in Hr. destruct Hr as [Hr Hvis].
      exists r. split; [exact Hr|]. split; [exact Hname|].
      unfold visible_to, is_global, owned_by in Hvis.
      destruct (cat_user_id r) as [u|]; [|left; reflexivity].
      simpl in Hvis. apply Z.eqb_eq in Hvis. right. congruence.
    + intros [r [Hr [Hname Hscope]]].
      apply (Permutation_in _ (Permutation_sym Hperm)).
      apply in_map_iff. exists r. split; [exact Hname|].
      apply filter_In. split; [exact Hr|].
      unfold visible_to, is_global, owned_by.
      destruct Hscope as [-> | ->]; [reflexivity|]. simpl. apply Z.eqb_refl.
Qed.

(** ** Seeding of the default categories *)

Lemma unique_eq_null (a : option Z) : unique_eq a None = false.
Proof. destruct a; reflexivity. Qed.

(** An insert with a NULL owner never meets the UNIQUE constraint. *)
Lemma insert_category_global (name : string) (d : db) :
  DB.insert_category name None d =
    Ok (mkDb (users d) (users_seq d)
             (categories d ++ [mkCategory (categories_seq d + 1) name None])
             (categories_seq d + 1) (expenses d) (expenses_seq d)).
Proof.
  unfold DB.insert_category.
  assert (E : existsb (fun r => String.eqb (cat_name r) name
                                && unique_eq (cat_user_id r) None) (categories d) = false).
  { apply existsb_false_forall. intros r _. rewrite unique_eq_null. apply andb_false_r. }
  rewrite E. reflexivity.
Qed.

(** The loop of [create_tables] over any list of names: one new global row
    per name, in order, and nothing else is touched. *)
Lemma seed_loop (names : list string) (d : db) :
  exists news,
    let d' := fold_left (fun d cat =>
                           match DB.insert_category cat None d with
                           | Ok d' => d'
                           | Raised IntegrityError => d
                           end) names d in
    categories d' = (categories d ++ news)%list
    /\ map cat_name news = names
    /\ Forall (fun r => cat_user_id r = None) news
    /\ users d' = users d /\ expenses d' = expenses d
    /\ expenses_seq d' = expenses_seq d.
Proof.
  revert d. induction names as [|name names IH]; intros d.
  - exists []. simpl. rewrite app_nil_r. repeat split. constructor.
  - cbn [fold_left]. rewrite insert_category_global.
    destruct (IH (mkDb (users d) (users_seq d)
                       (categories d ++ [mkCategory (categories_seq d + 1) name None])
                       (categories_seq d + 1) (expenses d) (expenses_seq d)))
      as [news [Hcat [Hnames [Hnull Hframe]]]].
    exists (mkCategory (categories_seq d + 1) name None :: news).
    cbv zeta in *. rewrite Hcat. simpl. rewrite <- app_assoc. simpl.
    split; [reflexivity|]. split; [f_equal; exact Hnames|].
    split; [constructor; [reflexivity|exact Hnull]|exact Hframe].
Qed.

Lemma create_tables_appends (d : db) :
  exists news,
    categories (DB.create_tables d) = (categories d ++ news)%list
    /\ map cat_name news = DB.defaults
    /\ Forall (fun r => cat_user_id r = None) news.
Proof.
  destruct (seed_loop DB.defaults d) as [news [H1 [H2 [H3 _]]]].
  exists news. auto.
Qed.

Lemma concat_repeat_snoc {A : Type} (l : list A) (n : nat) :
  (List.concat (repeat l n) ++ l)%list = List.concat (repeat l (S n)).
Proof.
  induction n as [|n IH]; simpl in *; [rewrite app_nil_r; reflexivity|].
  rewrite <- app_assoc, IH. reflexivity.
Qed.

(** What does hold of C4: after a run the six names are listed for every
    user. *)
Lemma create_tables_lists_defaults (uid : option Z) (d : db) (name : string) :
  In name DB.defaults -> In name (DB.get_categories uid (DB.create_tables d)).
Proof.
  intros Hin. unfold DB.get_categories.
  set (le := fun r1 r2 => String.leb (cat_name r1) (cat_name r2)).
  assert (Hrow : exists r, In r (categories (DB.create_tables d))
                           /\ cat_name r = name /\ cat_user_id r = None).
  { destruct (create_tables_appends d) as [news [Hcat [Hnames Hnull]]].
    rewrite <- Hnames in Hin. apply in_map_iff in Hin. destruct Hin as [r [Hname Hr]].
    exists r. split; [rewrite Hcat; apply in_or_app; right; exact Hr|].
    split; [exact Hname|]. rewrite Forall_forall in Hnull. exact (Hnull r Hr). }
  destruct Hrow as [r [Hr [Hname Hnull]]].
  apply in_map_iff. exists r. split; [exact Hname|].
  destruct uid as [u|].
  - apply (Permutation_in _ (Permutation_sym (order_by_perm le _))).
    apply filter_In. split; [exact Hr|]. unfold is_global. rewrite Hnull. reflexivity.
  - apply (Permutation_in _ (Permutation_sym (order_by_perm le _))).
    apply filter_In. split; [exact Hr|]. unfold is_global. rewrite Hnull. reflexivity.
Qed.

(** C4: the seeding is not idempotent in the code. Every run of
    [create_tables] appends six more global rows, because a NULL owner never
    conflicts under [UNIQUE(name, user_id)] and the [IntegrityError] that the
    loop is prepared for is never raised; after [n] runs every seed name has
    [n] global rows, and after two runs [get_categories] lists every seed
    name twice. *)
Theorem create_tables_not_idempotent :
  (forall n : nat,
     map cat_name (categories (Nat.iter n DB.create_tables empty_db))
     = List.concat (repeat DB.defaults n)
     /\ forall r, In r (categories (Nat.iter n DB.create_tables empty_db)) ->
                  cat_user_id r = None)
  /\ DB.get_categories (Some 1) (DB.create_tables (DB.create_tables empty_db))
     = ["Bills"; "Bills"; "Entertainment"; "Entertainment"; "Food"; "Food";
        "Other"; "Other"; "Shopping"; "Shopping"; "Transport"; "Transport"].
Proof.
  split; [|reflexivity].
  induction n as [|n [IHnames IHnull]].
  - split; [reflexivity|intros r []].
  - change (Nat.iter (S n) DB.create_tables empty_db)
      with (DB.create_tables (Nat.iter n DB.create_tables empty_db)).
    destruct (create_tables_appends (Nat.iter n DB.create_tables empty_db))
      as [news [Hcat [Hnames Hnull]]].
    rewrite Hcat. split.
    + rewrite map_app, IHnames, Hnames. apply (concat_repeat_snoc DB.defaults n).
    + intros r Hr. apply in_app_or in Hr. destruct Hr as [Hr|Hr]; [exact (IHnull r Hr)|].
      rewrite Forall_forall in Hnull. exact (Hnull r Hr).
Qed.

(** ** Aggregation engine *)

(** The [None] of an empty [SUM] and the [else 0] of the method meet the sum
    of no amounts. *)
Lemma get_monthly_total_sum (uid year month : Z) (d : db) :
  DB.get_monthly_total uid year month d =
    sum_amounts (map exp_amount
      (filter (in_period uid (period_start year month) (period_end year month)) (expenses d))).
Proof.
  unfold DB.get_monthly_total, sql_sum.
  destruct (map exp_amount _); reflexivity.
Qed.

Lemma distinct_In (l : list string) (x : string) : In x (distinct l) <-> In x l.
Proof.
  induction l as [|y l IH]; simpl; [reflexivity|].
  rewrite filter_In, IH, negb_true_iff, String.eqb_neq.
  destruct (string_dec y x) as [->|Hne]; [tauto|].
  split; [tauto|]. intros [H|H]; [tauto|]. right. split; [exact H|congruence].
Qed.

Lemma NoDup_filter {A : Type} (p : A -> bool) (l : list A) :
  NoDup l -> NoDup (filter p l).
Proof.
  induction 1 as [|x l Hx Hnd IH]; simpl; [constructor|].
  destruct (p x); [|exact IH].
  constructor; [|exact IH]. rewrite filter_In. tauto.
Qed.

Lemma distinct_NoDup (l : list string) : NoDup (distinct l).
Proof.
  induction l as [|x l IH]; simpl; constructor.
  - rewrite filter_In, String.eqb_refl. simpl. intros [_ H]. discriminate H.
  - apply NoDup_filter. exact IH.
Qed.

(** The share of one amount in the groups of the keys [ks]: it is counted
    in the group of its own category, if that is among the keys. *)
Lemma sum_share (k : string) (a : Q) (ks : list string) :
  NoDup ks ->
  (exact_sum (map (fun c => if String.eqb k c then a else 0) ks)
   == if in_dec string_dec k ks then a else 0)%Q.
Proof.
  induction 1 as [|c ks Hc Hnd IH]; simpl; [reflexivity|].
  rewrite IH.
  destruct (string_dec c k) as [->|Hne].
  - rewrite String.eqb_refl.
    destruct (in_dec string_dec k ks); [contradiction|ring].
  - assert (E : String.eqb k c = false) by (apply String.eqb_neq; congruence).
    rewrite E. destruct (in_dec string_dec k ks); ring.
Qed.

Lemma exact_sum_groups (l : list expense_row) (ks : list string) :
  NoDup ks ->
  (forall r, In r l -> In (exp_category r) ks) ->
  (exact_sum
     (map (fun c => exact_sum
                      (map exp_amount (filter (fun r => String.eqb (exp_category r) c) l)))
          ks)
   == exact_sum (map exp_amount l))%Q.
Proof.
  intros Hnd. induction l as [|r l IH]; intros Hcov.
  - simpl. clear. induction ks as [|c ks IHk]; simpl; [reflexivity|]. rewrite IHk. ring.
  - simpl. rewrite <- IH by (intros r' Hr'; apply Hcov; right; exact Hr').
    rewrite <- (Qplus_comm _ (exp_amount r)).
    assert (Hshare := sum_share (exp_category r) (exp_amount r) ks Hnd).
    destruct (in_dec string_dec (exp_category r) ks) as [_|Hout];
      [|exfalso; apply Hout, Hcov; left; reflexivity].
    rewrite <- Hshare. clear.
    induction ks as [|c ks IHk]; simpl; [ring|].
    rewrite IHk. destruct (String.eqb (exp_category r) c); simpl; ring.
Qed.

(** A key that is not listed changes no group. *)
Lemma groups_without_key (r : expense_row) (g : string -> list expense_row) (ks : list string) :
  ~ In (exp_category r) ks ->
  flat_map (fun c => if String.eqb (exp_category r) c then r :: g c else g c) ks
  = flat_map g ks.
Proof.
  induction ks as [|c ks IHk]; intros Hout; [reflexivity|].
  cbn [flat_map].
  assert (Hne : String.eqb (exp_category r) c = false).
  { apply String.eqb_neq. intros E. apply Hout. left. symmetry. exact E. }
  rewrite Hne, IHk; [reflexivity|].
  intros H. apply Hout. right. exact H.
Qed.

(** A row put at the head of the group of its category is one more row of
    the groups taken together. *)
Lemma groups_with_row (r : expense_row) (g : string -> list expense_row) (ks : list string) :
  NoDup ks -> In (exp_category r) ks ->
  Permutation
    (flat_map (fun c => if String.eqb (exp_category r) c then r :: g c else g c) ks)
    (r :: flat_map g ks).
Proof.
  induction 1 as [|c ks Hc Hnd IH]; intros Hin; [destruct Hin|].
  cbn [flat_map]. destruct (String.eqb_spec (exp_category r) c) as [E|E].
  - subst c. rewrite (groups_without_key r g ks Hc). reflexivity.
  - destruct Hin as [Hin|Hin]; [contradiction E; symmetry; exact Hin|].
    rewrite (IH Hin). symmetry. apply (Permutation_middle (g c) (flat_map g ks) r).
Qed.

(** The groups of distinct keys that cover the categories of the rows hold
    every row once. *)
Lemma groups_partition (l : list expense_row) (ks : list string) :
  NoDup ks ->
  (forall r, In r l -> In (exp_category r) ks) ->
  Permutation (flat_map (fun c => filter (fun r => String.eqb (exp_category r) c) l) ks) l.
Proof.
  intros Hnd. induction l as [|r l IH]; intros Hcov.
  - clear. induction ks as [|c ks IHk]; [constructor|exact IHk].
  - assert (Hr : In (exp_category r) ks) by (apply Hcov; left; reflexivity).
    etransitivity; [|apply perm_skip, (IH (fun x Hx => Hcov x (or_intror Hx)))].
    etransitivity; [|apply (groups_with_row r _ ks Hnd Hr)].
    apply Permutation_refl'. apply flat_map_ext. intros c. simpl. reflexivity.
Qed.

Lemma get_category_summary_keys (uid year month : Z) (d : db) :
  map fst (DB.get_category_summary uid year month d)
  = distinct (map exp_category (selected uid year month d)).
Proof.
  unfold DB.get_category_summary. rewrite map_map. simpl. apply map_id.
Qed.

(** C3 as stated fails: with 50.0 and 13.3 for bills and 8.6 for food the
    breakdown has 63.3 and 8.6, which add up to 71.89999999999999, and the
    monthly total is 71.9. *)
Lemma category_summary_sum_differs :
  and_then (and_then (DB.add_expense 1 (amount_of "50.0") "Bills" "" "2024-03-01" empty_db)
                     (DB.add_expense 1 (amount_of "8.6") "Food" "" "2024-03-02"))
           (DB.add_expense 1 (amount_of "13.3") "Bills" "" "2024-03-03")
  = Ok ledger_three
  /\ DB.get_category_summary 1 2024 3 ledger_three
     = [("Bills", amount_of "63.3"); ("Food", amount_of "8.6")]
  /\ DB.get_monthly_total 1 2024 3 ledger_three = amount_of "71.9"
  /\ sum_amounts (map snd (DB.get_category_summary 1 2024 3 ledger_three))
     = amount_of "71.89999999999999"
  /\ ~ (sum_amounts (map snd (DB.get_category_summary 1 2024 3 ledger_three))
        == DB.get_monthly_total 1 2024 3 ledger_three)%Q
  /\ ~ (exact_sum (map snd (DB.get_category_summary 1 2024 3 ledger_three))
        == DB.get_monthly_total 1 2024 3 ledger_three)%Q.
Proof.
  split; [vm_compute; reflexivity|]. split; [vm_compute; reflexivity|].
  split; [vm_compute; reflexivity|]. split; [vm_compute; reflexivity|].
  split; intros H; vm_compute in H; discriminate H.
Qed.

(** C3, amended: the breakdown and the monthly total are sums over the same
    selection of rows; every category is listed once, and exactly when a
    selected row carries that category string; the groups of the listed
    categories hold every selected row once; each value of the breakdown is
    the sum over its group and the monthly total is the sum over the whole
    selection, both in the rounded arithmetic of the doubles; in exact
    arithmetic the sums over the groups add up to the sum over the
    selection. *)
Theorem category_summary_partition : forall (uid year month : Z) (d : db),
  NoDup (map fst (DB.get_category_summary uid year month d))
  /\ (forall c, In c (map fst (DB.get_category_summary uid year month d)) <->
                exists r, In r (selected uid year month d) /\ exp_category r = c)
  /\ Permutation
       (flat_map (group_rows uid year month d)
                 (map fst (DB.get_category_summary uid year month d)))
       (selected uid year month d)
  /\ DB.get_category_summary uid year month d
     = map (fun c => (c, sum_amounts (map exp_amount (group_rows uid year month d c))))
           (map fst (DB.get_category_summary uid year month d))
  /\ DB.get_monthly_total uid year month d
     = sum_amounts (map exp_amount (selected uid year month d))
  /\ (exact_sum
        (map (fun c => exact_sum (map exp_amount (group_rows uid year month d c)))
             (map fst (DB.get_category_summary uid year month d)))
      == exact_sum (map exp_amount (selected uid year month d)))%Q.
Proof.
  intros uid year month d.
  assert (Hkeys := get_category_summary_keys uid year month d).
  assert (Hcov : forall r, In r (selected uid year month d) ->
                           In (exp_category r)
                              (distinct (map exp_category (selected uid year month d))))
    by (intros r Hr; apply (proj2 (distinct_In _ _)); apply in_map; exact Hr).
  rewrite Hkeys.
  split; [apply distinct_NoDup|]. split; [|split; [|split; [|split]]].
  - intros c. rewrite distinct_In, in_map_iff.
    split; intros [r [H1 H2]]; exists r; split; assumption.
  - apply groups_partition; [apply distinct_NoDup|exact Hcov].
  - reflexivity.
  - apply get_monthly_total_sum.
  - apply exact_sum_groups; [apply distinct_NoDup|exact Hcov].
Qed.

Lemma in_period_in_month (uid year month : Z) (r : expense_row) :
  in_period uid (period_start year month) (period_end year month) r
  = (exp_user_id r =? uid) && in_month year month (exp_date r).
Proof.
  unfold in_period, in_month, next_month, period_end.
  rewrite <- andb_assoc. destruct (month =? 12); reflexivity.
Qed.

(** The scenario of the specification: 50 and 30 spent on food in March
    2024. *)
Example march_scenario :
  exists d1 d2,
    DB.add_expense 1 50.0%Q "Food" "" "2024-03-15" empty_db = Ok d1
    /\ DB.add_expense 1 30.0%Q "Food" "" "2024-03-20" d1 = Ok d2
    /\ (DB.get_monthly_total 1 2024 3 d2 == 80.0)%Q
    /\ map fst (DB.get_category_summary 1 2024 3 d2) = ["Food"]
    /\ Forall (fun t => t == 80.0)%Q (map snd (DB.get_category_summary 1 2024 3 d2)).
Proof.
  do 2 eexists. split; [reflexivity|]. split; [reflexivity|].
  split; [reflexivity|]. split; [reflexivity|].
  repeat constructor.
Qed.

(** ** Validation in [MainApp.add_expense] *)

Lemma code_digit_char (k : N) : (k < 10)%N -> Py.code (digit_char k) = (48 + k)%N.
Proof.
  intros Hk. unfold Py.code, digit_char. apply N_ascii_embedding. lia.
Qed.

Lemma digit_in_digit_char (k : N) (rest : list ascii) :
  (k < 10)%N -> Py.digit_in "0" "9" (digit_char k :: rest) = [(k, rest)].
Proof.
  intros Hk. unfold Py.digit_in, Py.bind, Py.char_if, Py.between, Py.ret, Py.digit_value.
  rewrite (code_digit_char k Hk).
  change (Py.code "0") with 48%N. change (Py.code "9") with 57%N.
  assert (E1 : (48 <=? 48 + k)%N = true) by (apply N.leb_le; lia).
  assert (E2 : (48 + k <=? 57)%N = true) by (apply N.leb_le; lia).
  rewrite E1, E2. cbn [andb flat_map app]. rewrite (code_digit_char k Hk).
  replace (48 + k - 48)%N with k by lia. reflexivity.
Qed.

Lemma bind_single {A B : Type} (p : Py.parser A) (k : A -> Py.parser B)
    (l r : list ascii) (a : A) :
  p l = [(a, r)] -> Py.bind p k l = k a r.
Proof.
  intros Hp. unfold Py.bind. rewrite Hp. simpl. apply app_nil_r.
Qed.

Lemma days_in_month_le (y m : N) : (Py.days_in_month y m <= 31)%N.
Proof.
  unfold Py.days_in_month.
  destruct (m =? 2)%N; [destruct (Py.is_leap y); lia|].
  destruct ((m =? 4) || (m =? 6) || (m =? 9) || (m =? 11))%N; lia.
Qed.

Ltac split_digit n :=
  let q := fresh "q" in
  destruct n as [|q]; [|do 5 (try destruct q as [q|q|])]; try lia.

(** The month and the day, with whatever year [Y] was read before them. *)
Lemma format_regex_month_day (Y m d : N) :
  (1 <= m <= 12)%N -> (1 <= d <= 31)%N ->
  hd_error
    (Py.bind (Py.literal "-") (fun _ =>
     Py.bind Py.directive_m (fun m0 =>
     Py.bind (Py.literal "-") (fun _ =>
     Py.bind Py.directive_d (fun d0 =>
     Py.ret (Y, m0, d0)))))
       ("-"%char :: two_digits m ++ "-"%char :: two_digits d)%list)
  = Some ((Y, m, d), []).
Proof.
  intros Hm Hd. split_digit m; split_digit d; vm_compute; reflexivity.
Qed.

Lemma four_digits_value (y : N) :
  (y <= 9999)%N ->
  (y / 1000 < 10 /\ y / 100 mod 10 < 10 /\ y / 10 mod 10 < 10 /\ y mod 10 < 10
   /\ 1000 * (y / 1000) + 100 * (y / 100 mod 10) + 10 * (y / 10 mod 10) + y mod 10 = y)%N.
Proof.
  intros Hy.
  assert (H1 := N.div_mod y 10 ltac:(lia)).
  assert (H2 := N.div_mod (y / 10) 10 ltac:(lia)).
  assert (H3 := N.div_mod (y / 100) 10 ltac:(lia)).
  assert (E2 : (y / 10 / 10 = y / 100)%N) by (rewrite N.Div0.div_div; reflexivity).
  assert (E3 : (y / 100 / 10 = y / 1000)%N) by (rewrite N.Div0.div_div; reflexivity).
  rewrite E2 in H2. rewrite E3 in H3.
  assert (B1 := N.mod_lt y 10 ltac:(lia)).
  assert (B2 := N.mod_lt (y / 10) 10 ltac:(lia)).
  assert (B3 := N.mod_lt (y / 100) 10 ltac:(lia)).
  clear E2 E3.
  generalize dependent (y / 1000)%N. generalize dependent ((y / 100) mod 10)%N.
  generalize dependent (y / 100)%N. generalize dependent ((y / 10) mod 10)%N.
  generalize dependent (y / 10)%N. generalize dependent (y mod 10)%N.
  intros. lia.
Qed.

Lemma format_regex_iso (y m d : N) :
  (y <= 9999)%N -> (1 <= m <= 12)%N -> (1 <= d <= 31)%N ->
  hd_error (Py.format_regex (iso_chars y m d)) = Some ((y, m, d), []).
Proof.
  intros Hy Hm Hd.
  destruct (four_digits_value y Hy) as [Ha [Hb [Hc [He Hval]]]].
  unfold Py.format_regex, iso_chars, four_digits.
  rewrite (bind_single Py.directive_Y _ _
             ("-"%char :: two_digits m ++ "-"%char :: two_digits d)%list y).
  - apply format_regex_month_day; assumption.
  - unfold Py.directive_Y. simpl app.
    rewrite (bind_single _ _ _ _ _ (digit_in_digit_char _ _ Ha)).
    rewrite (bind_single _ _ _ _ _ (digit_in_digit_char _ _ Hb)).
    rewrite (bind_single _ _ _ _ _ (digit_in_digit_char _ _ Hc)).
    rewrite (bind_single _ _ _ _ _ (digit_in_digit_char _ _ He)).
    unfold Py.ret. rewrite Hval. reflexivity.
Qed.

(** [strptime] accepts every ISO calendar date and reads it as written. *)
Lemma strptime_iso (y m d : N) :
  calendar_date y m d -> Py.strptime (iso_text y m d) = Some (y, m, d).
Proof.
  intros [[Hy1 Hy2] [Hm [Hd1 Hd2]]].
  assert (Hd31 := days_in_month_le y m).
  assert (Hhd := format_regex_iso y m d Hy2 Hm ltac:(lia)).
  unfold Py.strptime, iso_text. rewrite list_ascii_of_string_of_list_ascii.
  destruct (Py.format_regex (iso_chars y m d)) as [|x tl]; [discriminate Hhd|].
  simpl in Hhd. inversion Hhd; subst x.
  assert (E1 : (1 <=? y)%N = true) by (apply N.leb_le; lia).
  assert (E2 : (d <=? Py.days_in_month y m)%N = true) by (apply N.leb_le; lia).
  rewrite E1, E2. reflexivity.
Qed.

(** *** What a click on "Add Expense" does *)






(** The date check lets through more than the ISO form that its own error
    message asks for: a month or a day of one digit passes [strptime], the
    text is stored as typed, and the text comparison of the aggregation
    queries then counts the record of March 5 in December and not in
    March. *)
Lemma add_expense_accepts_unpadded_date :
  exists d',
    MainApp.add_expense negative_wedge 1
      (MainApp.mkForm "20" "Food" "2024-3-5" "" 2024 3) ledger_one
    = MainApp.Added d' false
    /\ ~ iso_calendar_date "2024-3-5"
    /\ DB.get_monthly_total 1 2024 3 d' = DB.get_monthly_total 1 2024 3 ledger_one
    /\ DB.get_monthly_total 1 2024 12 ledger_one = 0%Q
    /\ DB.get_monthly_total 1 2024 12 d' = 20%Q.
Proof.
  eexists. split; [vm_compute; reflexivity|]. split; [|repeat split; vm_compute; reflexivity].
  intros [y [m [dd [_ Htext]]]].
  apply (f_equal String.length) in Htext. vm_compute in Htext. discriminate Htext.
Qed.

(** ** The aggregation period on calendar dates

    The bounds of the period are texts and the stored dates are compared
    with them as texts. For dates stored in ISO form this is the comparison
    of the calendar dates. *)

Lemma compare_digit_cons (a b : N) (s t : string) :
  (a < 10)%N -> (b < 10)%N ->
  String.compare (String (digit_char a) s) (String (digit_char b) t)
  = match (a ?= b)%N with Eq => String.compare s t | Lt => Lt | Gt => Gt end.
Proof.
  intros Ha Hb. simpl. unfold Ascii.compare.
  change N_of_ascii with Py.code.
  rewrite (code_digit_char a Ha), (code_digit_char b Hb).
  assert (E : (48 + a ?= 48 + b)%N = (a ?= b)%N)
    by (destruct (N.compare_spec (48 + a) (48 + b)), (N.compare_spec a b);
        try reflexivity; lia).
  rewrite E. reflexivity.
Qed.

Lemma compare_hyphen_cons (s t : string) :
  String.compare (String "-" s) (String "-" t) = String.compare s t.
Proof. reflexivity. Qed.

Lemma two_digits_value (n : N) :
  (n <= 99)%N -> (n / 10 < 10 /\ n mod 10 < 10 /\ 10 * (n / 10) + n mod 10 = n)%N.
Proof.
  intros Hn.
  assert (H1 := N.div_mod n 10 ltac:(lia)).
  assert (B1 := N.mod_lt n 10 ltac:(lia)).
  generalize dependent (n / 10)%N. generalize dependent (n mod 10)%N.
  intros. lia.
Qed.

Ltac next_digit :=
  match goal with
  | |- match N.compare ?a ?b with Eq => _ | Lt => _ | Gt => _ end = _ =>
      destruct (N.compare_spec a b);
      [subst|symmetry; apply N.compare_lt_iff; unfold date_key; lia
            |symmetry; apply N.compare_gt_iff; unfold date_key; lia]
  end.

(** On ISO texts the byte order of the BINARY collation is the order of the
    calendar. *)
Lemma iso_text_compare (y m d y' m' d' : N) :
  (y <= 9999)%N -> (m <= 99)%N -> (d <= 99)%N ->
  (y' <= 9999)%N -> (m' <= 99)%N -> (d' <= 99)%N ->
  String.compare (iso_text y m d) (iso_text y' m' d')
  = N.compare (date_key y m d) (date_key y' m' d').
Proof.
  intros Hy Hm Hd Hy' Hm' Hd'.
  destruct (four_digits_value y Hy) as [A1 [A2 [A3 [A4 Ay]]]].
  destruct (four_digits_value y' Hy') as [B1 [B2 [B3 [B4 By]]]].
  destruct (two_digits_value m Hm) as [C1 [C2 Cm]].
  destruct (two_digits_value m' Hm') as [D1 [D2 Dm]].
  destruct (two_digits_value d Hd) as [E1 [E2 Ed]].
  destruct (two_digits_value d' Hd') as [F1 [F2 Fd]].
  unfold iso_text, iso_chars, four_digits, two_digits.
  cbn [app string_of_list_ascii].
  rewrite !compare_digit_cons by assumption. rewrite compare_hyphen_cons.
  rewrite !compare_digit_cons by assumption. rewrite compare_hyphen_cons.
  rewrite !compare_digit_cons by assumption.
  cbn [String.compare].
  generalize dependent (y / 1000)%N. generalize dependent (y / 100 mod 10)%N.
  generalize dependent (y / 10 mod 10)%N. generalize dependent (y mod 10)%N.
  generalize dependent (y' / 1000)%N. generalize dependent (y' / 100 mod 10)%N.
  generalize dependent (y' / 10 mod 10)%N. generalize dependent (y' mod 10)%N.
  generalize dependent (m / 10)%N. generalize dependent (m mod 10)%N.
  generalize dependent (m' / 10)%N. generalize dependent (m' mod 10)%N.
  generalize dependent (d / 10)%N. generalize dependent (d mod 10)%N.
  generalize dependent (d' / 10)%N. generalize dependent (d' mod 10)%N.
  intros. clear Hy Hm Hd Hy' Hm' Hd'. subst y y' m m' d d'.
  do 8 next_digit.
  symmetry. apply N.compare_eq_iff. reflexivity.
Qed.

Lemma upto_In (n k : N) : (k < n)%N -> In k (upto n).
Proof.
  intros Hk. apply in_map_iff. exists (N.to_nat k). split; [lia|]. apply in_seq. lia.
Qed.

Lemma format_d_four_digits (y : N) :
  (y <= 9999)%N -> format_d 4 (Z.of_N y) = string_of_list_ascii (four_digits y).
Proof.
  intros Hy.
  assert (Hall : forallb (fun k => String.eqb (format_d 4 (Z.of_N k))
                                     (string_of_list_ascii (four_digits k)))
                         (upto 10000) = true) by (vm_compute; reflexivity).
  rewrite forallb_forall in Hall. apply String.eqb_eq, Hall, upto_In. lia.
Qed.

Lemma format_d_two_digits (m : N) :
  (m <= 99)%N -> format_d 2 (Z.of_N m) = string_of_list_ascii (two_digits m).
Proof.
  intros Hm.
  assert (Hall : forallb (fun k => String.eqb (format_d 2 (Z.of_N k))
                                     (string_of_list_ascii (two_digits k)))
                         (upto 100) = true) by (vm_compute; reflexivity).
  rewrite forallb_forall in Hall. apply String.eqb_eq, Hall, upto_In. lia.
Qed.

Lemma iso_first_of_month_text (year month : Z) :
  0 <= year <= 9999 -> 0 <= month <= 99 ->
  iso_first_of_month year month = iso_text (Z.to_N year) (Z.to_N month) 1.
Proof.
  intros Hy Hm. unfold iso_first_of_month.
  rewrite <- (Z2N.id year) at 1 by lia. rewrite <- (Z2N.id month) at 1 by lia.
  rewrite format_d_four_digits, format_d_two_digits by lia.
  reflexivity.
Qed.

(** For an ISO calendar date the text interval of a month holds exactly the
    dates of that year and month. *)
Lemma in_month_calendar (year month : Z) (y m d : N) :
  0 <= year <= 9999 -> 1 <= month <= 12 -> (year, month) <> (9999, 12) ->
  calendar_date y m d ->
  in_month year month (iso_text y m d) = (Z.of_N y =? year) && (Z.of_N m =? month).
Proof.
  intros Hyear Hmonth Hlast [[Hy1 Hy2] [[Hm1 Hm2] [Hd1 Hd2]]].
  assert (Hnext : month = 12 -> year <= 9998)
    by (intros ->; destruct (Z.eq_dec year 9999) as [->|]; [congruence|lia]).
  assert (Hd31 := days_in_month_le y m).
  unfold in_month, next_month.
  destruct (Z.eqb_spec month 12) as [E12|E12]; cbn [fst snd];
    rewrite !iso_first_of_month_text by lia;
    unfold String.leb, String.ltb;
    rewrite !iso_text_compare by lia;
    unfold date_key;
    repeat match goal with
           | |- context [N.compare ?a ?b] => destruct (N.compare_spec a b)
           end;
    destruct (Z.eqb_spec (Z.of_N y) year); destruct (Z.eqb_spec (Z.of_N m) month);
    cbn [andb]; try reflexivity; exfalso; lia.
Qed.

(** On a ledger of ISO calendar dates the monthly total is the sum over the
    user's records of that calendar month. *)
Lemma get_monthly_total_calendar (uid year month : Z) (d : db) :
  0 <= year <= 9999 -> 1 <= month <= 12 -> (year, month) <> (9999, 12) ->
  (forall r, In r (expenses d) -> iso_calendar_date (exp_date r)) ->
  DB.get_monthly_total uid year month d
  = sum_amounts (map exp_amount
      (filter (fun r => (exp_user_id r =? uid) && dated_in year month (exp_date r))
              (expenses d))).
Proof.
  intros Hyear Hmonth Hlast Hiso. rewrite get_monthly_total_sum.
  f_equal. f_equal. apply filter_ext_in. intros r Hr.
  rewrite in_period_in_month. f_equal.
  destruct (Hiso r Hr) as [y [m [dd [Hcal Htext]]]].
  unfold dated_in. rewrite Htext, (strptime_iso y m dd Hcal).
  apply in_month_calendar; assumption.
Qed.

(** The bound excluded above: the period of December 9999 ends at the text
    "10000-01-01", which sorts before every date of that month. *)
Lemma december_9999_is_empty :
  period_end 9999 12 = "10000-01-01"
  /\ in_month 9999 12 "9999-12-31" = false.
Proof. split; reflexivity. Qed.

(** *** The monthly total and the calendar month *)






(** ** The invariant of the reachable states *)

Lemma create_tables_frame (d : db) :
  users (DB.create_tables d) = users d
  /\ expenses (DB.create_tables d) = expenses d
  /\ expenses_seq (DB.create_tables d) = expenses_seq d.
Proof.
  destruct (seed_loop DB.defaults d) as [news [_ [_ [_ Hframe]]]]. exact Hframe.
Qed.

Lemma add_category_frame (name : string) (uid : option Z) (d : db) :
  users (snd (DB.add_category name uid d)) = users d
  /\ expenses (snd (DB.add_category name uid d)) = expenses d
  /\ expenses_seq (snd (DB.add_category name uid d)) = expenses_seq d.
Proof.
  unfold DB.add_category, DB.insert_category.
  destruct (existsb _ (categories d)); simpl; auto.
Qed.

(** A DELETE keeps the remaining ids distinct. *)
Lemma expense_ids_filter (keep : expense_row -> bool) (es : list expense_row) :
  NoDup (map exp_id es) -> NoDup (map exp_id (filter keep es)).
Proof.
  intros Hnd. induction es as [|r es IH]; simpl; [constructor|].
  simpl in Hnd. apply NoDup_cons_iff in Hnd. destruct Hnd as [Hr Hnd].
  destruct (keep r); simpl; [|exact (IH Hnd)].
  apply NoDup_cons; [|exact (IH Hnd)].
  intros Hin. apply Hr. apply in_map_iff in Hin. destruct Hin as [r' [Heq Hin]].
  apply filter_In in Hin. rewrite <- Heq. apply in_map. tauto.
Qed.

Lemma step_invariant (sha256_hexdigest : string -> string) (d d' : db) :
  step sha256_hexdigest d d' -> db_invariant d -> db_invariant d'.
Proof.
  unfold db_invariant, unique_usernames.
  intros Hstep [Hu [Hids Hseq]]. destruct Hstep.
  - destruct (create_tables_frame d) as [-> [-> ->]]. auto.
  - split; [apply add_user_unique; exact Hu|].
    unfold DB.add_user, DB.insert_user. destruct (existsb _ (users d)); simpl; auto.
  - simpl. rewrite map_map. split; [|auto].
    erewrite map_ext; [exact Hu|]. intros r. destruct (usr_id r =? uid); reflexivity.
  - destruct (add_category_frame name uid d) as [-> [-> ->]]. auto.
  - inversion H; subst; clear H. simpl. split; [exact Hu|]. split.
    + rewrite map_app. simpl.
      apply Permutation_NoDup with (l := (expenses_seq d + 1) :: map exp_id (expenses d)).
      * apply Permutation_cons_append.
      * constructor; [|exact Hids]. intros Hin. apply in_map_iff in Hin.
        destruct Hin as [r [Hr Hin]]. rewrite Forall_forall in Hseq.
        specialize (Hseq r Hin). lia.
    + apply Forall_app. split.
      * apply Forall_impl with (P := fun r => exp_id r <= expenses_seq d); [|exact Hseq].
        intros r Hr. lia.
      * constructor; [simpl; lia|constructor].
  - inversion H; subst; clear H. simpl. split; [exact Hu|].
    assert (Hsame : map exp_id
                      (map (fun r => if exp_id r =? eid
                                     then mkExpense (exp_id r) (exp_user_id r) amount
                                                    category description date
                                     else r) (expenses d))
                    = map exp_id (expenses d)).
    { rewrite map_map. apply map_ext. intros r. destruct (exp_id r =? eid); reflexivity. }
    split; [rewrite Hsame; exact Hids|].
    apply Forall_map. apply Forall_impl with (P := fun r => exp_id r <= expenses_seq d);
      [|exact Hseq].
    intros r Hr. destruct (exp_id r =? eid); exact Hr.
  - inversion H; subst; clear H. simpl. split; [exact Hu|]. split.
    + apply expense_ids_filter. exact Hids.
    + rewrite Forall_forall in *. intros r Hr. apply filter_In in Hr. apply Hseq. tauto.
Qed.

Lemma reachable_invariant (sha256_hexdigest : string -> string) (d : db) :
  reachable sha256_hexdigest d -> db_invariant d.
Proof.
  induction 1 as [|d d' _ IH Hstep].
  - repeat split; simpl; constructor.
  - exact (step_invariant _ _ _ Hstep IH).
Qed.

(** * Further properties

    Properties of the methods and handlers beyond the claims above. *)

(** ** Budgets *)

Lemma find_user_updated (uid : Z) (amount : Q) (l : list user_row) :
  find (fun r => usr_id r =? uid)
       (map (fun r => if usr_id r =? uid then with_budget amount r else r) l)
  = option_map (with_budget amount) (find (fun r => usr_id r =? uid) l).
Proof.
  induction l as [|r l IH]; simpl; [reflexivity|].
  destruct (usr_id r =? uid) eqn:E; simpl; rewrite E; [reflexivity|exact IH].
Qed.

Lemma find_user_other (uid uid' : Z) (amount : Q) (l : list user_row) :
  uid' <> uid ->
  find (fun r => usr_id r =? uid')
       (map (fun r => if usr_id r =? uid then with_budget amount r else r) l)
  = find (fun r => usr_id r =? uid') l.
Proof.
  intros Hne. induction l as [|r l IH]; simpl; [reflexivity|].
  destruct (usr_id r =? uid) eqn:E; simpl.
  - apply Z.eqb_eq in E.
    assert (E' : (usr_id r =? uid') = false) by (apply Z.eqb_neq; congruence).
    rewrite E'. exact IH.
  - destruct (usr_id r =? uid'); [reflexivity|exact IH].
Qed.

(** X1: after [set_budget] for an existing user, [get_budget] returns the
    amount set; for a user id that is not in the table [set_budget] changes
    nothing and [get_budget] returns 0; the budget of every other user id is
    left as it was. *)
Theorem set_budget_get_budget : forall (uid : Z) (amount : Q) (d : db),
  ((exists r, In r (users d) /\ usr_id r = uid) ->
   DB.get_budget uid (DB.set_budget uid amount d) = amount)
  /\ ((forall r, In r (users d) -> usr_id r <> uid) ->
      DB.set_budget uid amount d = d
      /\ DB.get_budget uid (DB.set_budget uid amount d) = 0%Q)
  /\ (forall uid', uid' <> uid ->
      DB.get_budget uid' (DB.set_budget uid amount d) = DB.get_budget uid' d).
Proof.
  intros uid amount d. unfold DB.get_budget, DB.set_budget. simpl.
  split; [|split].
  - intros [r [Hin Hid]]. fold (with_budget amount).
    change (map _ (users d))
      with (map (fun r => if usr_id r =? uid then with_budget amount r else r) (users d)).
    rewrite find_user_updated.
    destruct (find (fun r0 => usr_id r0 =? uid) (users d)) as [r0|] eqn:F; [reflexivity|].
    exfalso. assert (H := find_none _ _ F r Hin). simpl in H.
    apply Z.eqb_neq in H. contradiction.
  - intros Hnone.
    assert (Hmap : map (fun r => if usr_id r =? uid
                                 then mkUser (usr_id r) (usr_username r)
                                             (usr_password_hash r) amount
                                 else r) (users d) = users d).
    { apply map_unchanged. intros r Hr.
      destruct (usr_id r =? uid) eqn:E; [|reflexivity].
      apply Z.eqb_eq in E. exfalso. exact (Hnone r Hr E). }
    rewrite Hmap. split; [destruct d; reflexivity|].
    rewrite find_none_all; [reflexivity|].
    intros r Hr. apply Z.eqb_neq. exact (Hnone r Hr).
  - intros uid' Hne.
    change (map _ (users d))
      with (map (fun r => if usr_id r =? uid then with_budget amount r else r) (users d)).
    rewrite (find_user_other uid uid' amount (users d) Hne). reflexivity.
Qed.

Lemma set_budget_get_budget_witness :
  DB.get_budget 1 (DB.set_budget 1 200%Q ledger_one) = 200%Q.
Proof.
  apply (proj1 (set_budget_get_budget 1 200%Q ledger_one)).
  exists (mkUser 1 "alice" "h" 0%Q). split; [left; reflexivity|reflexivity].
Defined.

(** ** Categories of a user *)

Lemma get_categories_In (uid : Z) (d : db) (name : string) :
  In name (DB.get_categories (Some uid) d) <->
  exists r, In r (categories d) /\ cat_name r = name /\ visible_to uid r = true.
Proof.
  unfold DB.get_categories. rewrite in_map_iff. split.
  - intros [r [Hname Hr]].
    apply (Permutation_in _ (order_by_perm _ _)) in Hr. apply filter_In in Hr.
    exists r. tauto.
  - intros [r [Hr [Hname Hvis]]]. exists r. split; [exact Hname|].
    apply (Permutation_in _ (Permutation_sym (order_by_perm _ _))).
    apply filter_In. split; assumption.
Qed.

Lemma insert_category_taken (name : string) (uid : Z) (d : db) :
  existsb (fun r => String.eqb (cat_name r) name && unique_eq (cat_user_id r) (Some uid))
          (categories d) = true
  <-> has_category name uid d.
Proof.
  rewrite existsb_exists. unfold has_category.
  split; intros [r [Hr H]]; exists r; (split; [exact Hr|]).
  - apply andb_true_iff in H. destruct H as [Hn Hu]. apply String.eqb_eq in Hn.
    split; [exact Hn|]. destruct (cat_user_id r) as [u|]; [|discriminate Hu].
    simpl in Hu. apply Z.eqb_eq in Hu. congruence.
  - destruct H as [Hn Hu]. rewrite Hn, Hu, String.eqb_refl. simpl. apply Z.eqb_refl.
Qed.

Lemma add_category_taken (name : string) (uid : Z) (d : db) :
  has_category name uid d -> DB.add_category name (Some uid) d = (false, d).
Proof.
  intros H. apply insert_category_taken in H.
  unfold DB.add_category, DB.insert_category. rewrite H. reflexivity.
Qed.

Lemma add_category_free (name : string) (uid : Z) (d : db) :
  ~ has_category name uid d ->
  DB.add_category name (Some uid) d
  = (true, mkDb (users d) (users_seq d)
               (categories d ++ [mkCategory (categories_seq d + 1) name (Some uid)])
               (categories_seq d + 1) (expenses d) (expenses_seq d)).
Proof.
  intros Hfree. unfold DB.add_category, DB.insert_category.
  destruct (existsb _ (categories d)) eqn:E; [|reflexivity].
  exfalso. apply Hfree. apply insert_category_taken. exact E.
Qed.

Lemma add_category_then_has (name : string) (uid : Z) (d : db) :
  has_category name uid (snd (DB.add_category name (Some uid) d)).
Proof.
  unfold DB.add_category, DB.insert_category.
  destruct (existsb _ (categories d)) eqn:E; simpl.
  - apply insert_category_taken. exact E.
  - exists (mkCategory (categories_seq d + 1) name (Some uid)).
    split; [apply in_or_app; right; left; reflexivity|split; reflexivity].
Qed.

Lemma has_category_listed (name : string) (uid : Z) (d : db) :
  has_category name uid d -> In name (DB.get_categories (Some uid) d).
Proof.
  intros [r [Hr [Hn Hu]]]. apply get_categories_In. exists r.
  split; [exact Hr|]. split; [exact Hn|].
  unfold visible_to, is_global, owned_by. rewrite Hu. simpl. apply Z.eqb_refl.
Qed.

(** X3: [add_category] for a user returns [False] and changes nothing when
    that user already has a category of that name; otherwise it returns
    [True], appends the row, leaves users and expenses alone, and a second
    call with the same name then returns [False]; in both cases the name is
    in the user's category list afterwards. *)
Theorem add_category_spec : forall (name : string) (uid : Z) (d : db),
  (has_category name uid d -> DB.add_category name (Some uid) d = (false, d))
  /\ (~ has_category name uid d ->
      exists d',
        DB.add_category name (Some uid) d = (true, d')
        /\ categories d' = (categories d ++ [mkCategory (categories_seq d + 1) name (Some uid)])%list
        /\ users d' = users d /\ expenses d' = expenses d
        /\ DB.add_category name (Some uid) d' = (false, d'))
  /\ In name (DB.get_categories (Some uid) (snd (DB.add_category name (Some uid) d))).
Proof.
  intros name uid d. split; [apply add_category_taken|]. split.
  - intros Hfree. eexists. split; [apply add_category_free; exact Hfree|].
    split; [reflexivity|]. split; [reflexivity|]. split; [reflexivity|].
    apply add_category_taken.
    assert (H := add_category_then_has name uid d).
    rewrite (add_category_free name uid d Hfree) in H. exact H.
  - apply has_category_listed, add_category_then_has.
Qed.

Lemma add_category_spec_witness :
  DB.add_category "Food" (Some 1) db_own_food = (false, db_own_food).
Proof.
  apply (proj1 (add_category_spec "Food" 1 db_own_food)).
  exists (mkCategory 7 "Food" (Some 1)). split; [|split; reflexivity].
  simpl. tauto.
Defined.

(** X4: a category added for user [b] changes neither the category list of
    another user [a] nor the list of the global categories. *)
Theorem add_category_frame_other_user : forall (name : string) (a b : Z) (d : db),
  a <> b ->
  DB.get_categories (Some a) (snd (DB.add_category name (Some b) d))
  = DB.get_categories (Some a) d
  /\ DB.get_categories None (snd (DB.add_category name (Some b) d))
     = DB.get_categories None d.
Proof.
  intros name a b d Hab. unfold DB.add_category, DB.insert_category.
  destruct (existsb _ (categories d)); simpl; [split; reflexivity|].
  unfold DB.get_categories. simpl.
  rewrite !filter_snoc_out; [split; reflexivity|reflexivity|].
  unfold is_global, owned_by. simpl. apply Z.eqb_neq. congruence.
Qed.

Lemma add_category_frame_other_user_witness :
  DB.get_categories (Some 2) (snd (DB.add_category "Pets" (Some 1) db_own_food))
  = DB.get_categories (Some 2) db_own_food
  /\ DB.get_categories None (snd (DB.add_category "Pets" (Some 1) db_own_food))
     = DB.get_categories None db_own_food.
Proof. apply (add_category_frame_other_user "Pets" 2 1 db_own_food). lia. Defined.

(** ** The expense list of a user *)

(** X6: [get_expenses] returns exactly the rows of the user, each as often
    as it is stored, with the newest date first. *)
Theorem get_expenses_spec : forall (uid : Z) (d : db),
  Permutation (DB.get_expenses uid d) (owned_expenses uid d)
  /\ newest_first (DB.get_expenses uid d)
  /\ forall r, In r (DB.get_expenses uid d) <-> In r (expenses d) /\ exp_user_id r = uid.
Proof.
  intros uid d.
  assert (Hperm : Permutation (DB.get_expenses uid d) (owned_expenses uid d))
    by apply order_by_perm.
  split; [exact Hperm|]. split.
  - unfold newest_first, DB.get_expenses.
    apply Sorted_StronglySorted.
    + intros x y z Hxy Hyz. exact (string_leb_trans _ _ _ Hyz Hxy).
    + apply (order_by_sorted (fun r1 r2 => String.leb (exp_date r2) (exp_date r1))).
      intros x y. destruct (String.leb_total (exp_date x) (exp_date y)); auto.
  - intros r. split.
    + intros Hin. apply (Permutation_in _ Hperm) in Hin.
      apply filter_In in Hin. destruct Hin as [Hin Hu]. apply Z.eqb_eq in Hu. auto.
    + intros [Hin Hu]. apply (Permutation_in _ (Permutation_sym Hperm)).
      apply filter_In. split; [exact Hin|]. apply Z.eqb_eq. exact Hu.
Qed.



(** In doubles the total need not move at all: 1 added to 2^53 is lost. *)
Example add_expense_amount_absorbed :
  double_add (inject_Z (2 ^ 53)) 1 = inject_Z (2 ^ 53)
  /\ double_add (amount_of "0.1") (amount_of "0.2") = amount_of "0.30000000000000004".
Proof. split; vm_compute; reflexivity. Qed.

(** ** Update and delete *)

Lemma filter_map_frame {A : Type} (p : A -> bool) (f : A -> A) (l : list A) :
  (forall x, In x l -> f x = x \/ (p x = false /\ p (f x) = false)) ->
  filter p (map f l) = filter p l.
Proof.
  induction l as [|x l IH]; intros H; simpl; [reflexivity|].
  rewrite IH by (intros y Hy; apply H; right; exact Hy).
  destruct (H x (or_introl eq_refl)) as [E|[E1 E2]].
  - rewrite E. reflexivity.
  - rewrite E1, E2. reflexivity.
Qed.

Lemma filter_filter_frame {A : Type} (p keep : A -> bool) (l : list A) :
  (forall x, In x l -> keep x = false -> p x = false) ->
  filter p (filter keep l) = filter p l.
Proof.
  induction l as [|x l IH]; intros H; simpl; [reflexivity|].
  rewrite <- IH by (intros y Hy; apply H; right; exact Hy).
  destruct (keep x) eqn:E; simpl; [reflexivity|].
  rewrite (H x (or_introl eq_refl) E). reflexivity.
Qed.

(** The three queries read the ledger through a filter that asks for the
    user first. *)
Lemma same_view_of_filters (a : Z) (d d' : db) :
  (forall p : expense_row -> bool,
     (forall r, exp_user_id r <> a -> p r = false) ->
     filter p (expenses d') = filter p (expenses d)) ->
  same_view a d d'.
Proof.
  intros H.
  assert (Huser : forall r, exp_user_id r <> a -> (exp_user_id r =? a) = false)
    by (intros r Hr; apply Z.eqb_neq; exact Hr).
  assert (Hper : forall lo hi r, exp_user_id r <> a -> in_period a lo hi r = false)
    by (intros lo hi r Hr; unfold in_period; rewrite (Huser r Hr); reflexivity).
  split.
  - unfold DB.get_expenses. rewrite (H _ Huser). reflexivity.
  - intros year month. unfold DB.get_monthly_total, DB.get_category_summary.
    rewrite (H _ (Hper _ _)). split; reflexivity.
Qed.

(** An edit of a record that is not of user [a] leaves the view of [a]. *)
Lemma edit_frame :
  forall (a eid : Z) (amount : Q) (category description date : string) (d d' : db),
  (forall r, In r (expenses d) -> exp_id r = eid -> exp_user_id r <> a) ->
  DB.update_expense eid amount category description date d = Ok d'
  \/ DB.delete_expense eid d = Ok d' ->
  same_view a d d'.
Proof.
  intros a eid amount category description date d d' Hown [Hrun|Hrun];
    inversion Hrun; subst d'; clear Hrun; apply same_view_of_filters; intros p Hp; simpl.
  - apply filter_map_frame. intros r Hr.
    destruct (exp_id r =? eid) eqn:E; [|left; reflexivity].
    apply Z.eqb_eq in E. right. split; apply Hp; simpl; exact (Hown r Hr E).
  - apply filter_filter_frame. intros r Hr Hkeep.
    apply negb_false_iff, Z.eqb_eq in Hkeep. apply Hp. exact (Hown r Hr Hkeep).
Qed.

(** X12: an update or a delete of an id that no row of user [a] carries
    leaves the expense list, the monthly totals and the category breakdowns
    of [a] as they were. *)
Theorem edit_frame_other_user :
  forall (a eid : Z) (amount : Q) (category description date : string) (d d' : db),
  (forall r, In r (expenses d) -> exp_id r = eid -> exp_user_id r <> a) ->
  DB.update_expense eid amount category description date d = Ok d'
  \/ DB.delete_expense eid d = Ok d' ->
  same_view a d d'.
Proof. exact edit_frame. Qed.

Lemma edit_frame_other_user_witness :
  same_view 2 ledger_one
    (mkDb (users ledger_one) 1 [] 0
          [mkExpense 1 1 30%Q "Bills" "rent" "2024-04-01"] 1).
Proof.
  apply (edit_frame_other_user 2 1 30%Q "Bills" "rent" "2024-04-01" ledger_one).
  - intros r [<-|[]] _. simpl. lia.
  - left. reflexivity.
Defined.

(** X8: a delete after an update of the same id is the delete alone; an
    update after a delete of the same id is the delete alone; of two updates
    of the same id the second one wins. *)
Theorem update_delete_compose :
  forall (eid : Z) (a1 a2 : Q) (c1 ds1 dt1 c2 ds2 dt2 : string) (d : db),
  and_then (DB.update_expense eid a1 c1 ds1 dt1 d) (DB.delete_expense eid)
  = DB.delete_expense eid d
  /\ and_then (DB.delete_expense eid d) (DB.update_expense eid a1 c1 ds1 dt1)
     = DB.delete_expense eid d
  /\ and_then (DB.update_expense eid a1 c1 ds1 dt1 d) (DB.update_expense eid a2 c2 ds2 dt2)
     = DB.update_expense eid a2 c2 ds2 dt2 d.
Proof.
  intros. unfold DB.update_expense, DB.delete_expense. simpl. split; [|split]; do 2 f_equal.
  - induction (expenses d) as [|r l IH]; simpl; [reflexivity|].
    destruct (exp_id r =? eid) eqn:E; simpl; rewrite E; simpl; rewrite IH; reflexivity.
  - apply map_unchanged. intros r Hr. apply filter_In in Hr. destruct Hr as [_ Hr].
    apply negb_true_iff in Hr. rewrite Hr. reflexivity.
  - rewrite map_map. apply map_ext. intros r.
    destruct (exp_id r =? eid) eqn:E; simpl; rewrite E; reflexivity.
Qed.

Lemma unique_id_row (l : list expense_row) (r x : expense_row) :
  NoDup (map exp_id l) -> In r l -> In x l -> exp_id x = exp_id r -> x = r.
Proof.
  induction l as [|y l IH]; intros Hnd Hr Hx Hid; [destruct Hr|].
  simpl in Hnd. apply NoDup_cons_iff in Hnd. destruct Hnd as [Hy Hnd].
  destruct Hr as [->|Hr]; destruct Hx as [->|Hx]; auto.
  - exfalso. apply Hy. rewrite <- Hid. apply in_map. exact Hx.
  - exfalso. apply Hy. rewrite Hid. apply in_map. exact Hr.
Qed.

(** The rows that a query selects after a delete are those it selected
    before, without the deleted ones. *)
Lemma selected_after_delete (p keep : expense_row -> bool) (l : list expense_row) :
  filter p (filter keep l) = filter keep (filter p l).
Proof.
  induction l as [|x l IH]; [reflexivity|].
  cbn [filter]. destruct (keep x) eqn:Ek, (p x) eqn:Ep; cbn [filter];
    rewrite ?Ek, ?Ep, IH; reflexivity.
Qed.

(** The rows that a query selects after an update are the updated rows of
    those it selected before, when the update moves no row into or out of
    the selection. *)
Lemma selected_after_update (p : expense_row -> bool) (f : expense_row -> expense_row)
    (l : list expense_row) :
  (forall x, In x l -> p (f x) = p x) ->
  filter p (map f l) = map f (filter p l).
Proof.
  induction l as [|x l IH]; intros H; [reflexivity|].
  cbn [map filter]. rewrite (H x (or_introl eq_refl)).
  rewrite IH by (intros y Hy; apply H; right; exact Hy).
  destruct (p x); reflexivity.
Qed.

(** X9: after [delete_expense] no row carries the id and every other row is
    kept; users and categories are untouched; every monthly total is the
    sum over the rows that were summed before, in their order, without the
    deleted ones; when ids are distinct and the id was present, the ledger
    has one row less and every monthly total is what it was, except those
    of the owner of the row for the months that hold its date. *)
Theorem delete_expense_removes : forall (eid : Z) (d : db),
  exists d',
    DB.delete_expense eid d = Ok d'
    /\ (forall r, In r (expenses d') <-> In r (expenses d) /\ exp_id r <> eid)
    /\ users d' = users d /\ categories d' = categories d
    /\ (forall uid year month : Z,
          selected uid year month d'
          = filter (fun x => negb (exp_id x =? eid)) (selected uid year month d)
          /\ DB.get_monthly_total uid year month d'
             = sum_amounts (map exp_amount
                 (filter (fun x => negb (exp_id x =? eid)) (selected uid year month d))))
    /\ (NoDup (map exp_id (expenses d)) ->
        forall r, In r (expenses d) -> exp_id r = eid ->
        S (List.length (expenses d')) = List.length (expenses d)
        /\ forall uid year month : Z,
             uid <> exp_user_id r \/ in_month year month (exp_date r) = false ->
             DB.get_monthly_total uid year month d'
             = DB.get_monthly_total uid year month d).
Proof.
  intros eid d. eexists. split; [reflexivity|]. simpl.
  split; [|split; [reflexivity|split; [reflexivity|split]]].
  - intros r. rewrite filter_In, negb_true_iff, Z.eqb_neq. reflexivity.
  - intros uid year month. rewrite get_monthly_total_sum. unfold selected. simpl.
    rewrite selected_after_delete. split; reflexivity.
  - intros Hnd r Hr Hid. subst eid. split.
    + clear - Hnd Hr. induction (expenses d) as [|x l IH]; [destruct Hr|].
      assert (Hnd' := Hnd). simpl in Hnd'. apply NoDup_cons_iff in Hnd'.
      destruct Hnd' as [Hx Hl]. cbn [filter].
      destruct (exp_id x =? exp_id r) eqn:E; cbn [negb].
      * apply Z.eqb_eq in E. rewrite filter_all; [reflexivity|].
        intros y Hy. apply negb_true_iff, Z.eqb_neq. intros Hyr.
        apply Hx. rewrite E, <- Hyr. apply in_map. exact Hy.
      * destruct Hr as [->|Hr]; [rewrite Z.eqb_refl in E; discriminate E|].
        simpl. f_equal. exact (IH Hl Hr).
    + intros uid year month Hout. rewrite !get_monthly_total_sum. simpl.
      rewrite filter_filter_frame; [reflexivity|].
      intros x Hx Hkeep. apply negb_false_iff, Z.eqb_eq in Hkeep.
      rewrite (unique_id_row (expenses d) r x Hnd Hr Hx Hkeep).
      rewrite in_period_in_month.
      destruct Hout as [Hu|Hm].
      * assert (E : (exp_user_id r =? uid) = false) by (apply Z.eqb_neq; congruence).
        rewrite E. reflexivity.
      * rewrite Hm. apply andb_false_r.
Qed.

Lemma delete_expense_removes_witness :
  exists d',
    DB.delete_expense 1 ledger_one = Ok d'
    /\ S (List.length (expenses d')) = 1%nat
    /\ DB.get_monthly_total 1 2024 4 d' = DB.get_monthly_total 1 2024 4 ledger_one.
Proof.
  destruct (delete_expense_removes 1 ledger_one) as [d' [Hrun [_ [_ [_ [_ H]]]]]].
  exists d'. split; [exact Hrun|].
  destruct (H ltac:(repeat constructor; simpl; tauto)
              (mkExpense 1 1 50%Q "Food" "lunch" "2024-03-15")
              ltac:(left; reflexivity) eq_refl) as [Hlen Htot].
  split; [exact Hlen|]. apply (Htot 1 2024 4). right. reflexivity.
Defined.

(** X10: when ids are distinct, an update of a stored row leaves every
    monthly total what it was, except those of the owner of the row for the
    months that hold its old or its new date; for a month that holds both
    dates, or neither, the rows summed are those summed before, in their
    order, with the new fields in the updated row; and an update that keeps
    the amount and the month changes no monthly total. *)
Theorem update_expense_total :
  forall (amount : Q) (category description date : string) (d : db) (r : expense_row),
  NoDup (map exp_id (expenses d)) -> In r (expenses d) ->
  exists d',
    DB.update_expense (exp_id r) amount category description date d = Ok d'
    /\ (forall uid year month : Z,
          uid <> exp_user_id r
          \/ (in_month year month (exp_date r) = false
              /\ in_month year month date = false) ->
          selected uid year month d' = selected uid year month d
          /\ DB.get_monthly_total uid year month d'
             = DB.get_monthly_total uid year month d)
    /\ (forall uid year month : Z,
          in_month year month date = in_month year month (exp_date r) ->
          selected uid year month d'
          = map (fun x => if exp_id x =? exp_id r
                          then with_fields amount category description date x else x)
                (selected uid year month d))
    /\ (amount = exp_amount r ->
        forall uid year month : Z,
          in_month year month date = in_month year month (exp_date r) ->
          DB.get_monthly_total uid year month d'
          = DB.get_monthly_total uid year month d).
Proof.
  intros amount category description date d r Hnd Hr.
  eexists. split; [reflexivity|].
  assert (Hsame : forall uid year month : Z,
            in_month year month date = in_month year month (exp_date r) ->
            filter (in_period uid (period_start year month) (period_end year month))
                   (map (fun x => if exp_id x =? exp_id r
                                  then with_fields amount category description date x
                                  else x) (expenses d))
            = map (fun x => if exp_id x =? exp_id r
                            then with_fields amount category description date x else x)
                  (filter (in_period uid (period_start year month) (period_end year month))
                          (expenses d))).
  { intros uid year month Hm. apply selected_after_update. intros x Hx.
    destruct (exp_id x =? exp_id r) eqn:E; [|reflexivity].
    apply Z.eqb_eq in E. rewrite (unique_id_row (expenses d) r x Hnd Hr Hx E).
    rewrite !in_period_in_month. simpl. rewrite Hm. reflexivity. }
  split; [|split].
  - intros uid year month Hout.
    assert (Hsel : selected uid year month
                     (mkDb (users d) (users_seq d) (categories d) (categories_seq d)
                        (map (fun x => if exp_id x =? exp_id r
                                       then mkExpense (exp_id x) (exp_user_id x) amount
                                              category description date
                                       else x) (expenses d))
                        (expenses_seq d))
                   = selected uid year month d).
    { unfold selected. simpl. apply filter_map_frame. intros x Hx.
      destruct (exp_id x =? exp_id r) eqn:E; [|left; reflexivity].
      apply Z.eqb_eq in E. rewrite (unique_id_row (expenses d) r x Hnd Hr Hx E).
      right. rewrite !in_period_in_month. simpl.
      destruct Hout as [Hu|[Hold Hnew]].
      - assert (Eu : (exp_user_id r =? uid) = false) by (apply Z.eqb_neq; congruence).
        rewrite Eu. split; reflexivity.
      - rewrite Hold, Hnew. split; apply andb_false_r. }
    split; [exact Hsel|].
    rewrite !get_monthly_total_sum. fold (selected uid year month d).
    rewrite <- Hsel. reflexivity.
  - intros uid year month Hm. unfold selected. simpl. exact (Hsame uid year month Hm).
  - intros Hamount uid year month Hm. rewrite !get_monthly_total_sum. simpl.
    unfold with_fields in Hsame. rewrite (Hsame uid year month Hm), map_map.
    f_equal. apply map_ext_in. intros x Hx. apply filter_In in Hx. destruct Hx as [Hx _].
    destruct (exp_id x =? exp_id r) eqn:E; [|reflexivity].
    apply Z.eqb_eq in E. rewrite (unique_id_row (expenses d) r x Hnd Hr Hx E).
    simpl. exact Hamount.
Qed.

Lemma update_expense_total_witness :
  exists d',
    DB.update_expense 1 30%Q "Bills" "rent" "2024-04-01" ledger_one = Ok d'
    /\ DB.get_monthly_total 1 2024 5 d' = DB.get_monthly_total 1 2024 5 ledger_one.
Proof.
  destruct (update_expense_total 30%Q "Bills" "rent" "2024-04-01" ledger_one
              (mkExpense 1 1 50%Q "Food" "lunch" "2024-03-15")
              ltac:(repeat constructor; simpl; tauto) ltac:(left; reflexivity))
    as [d' [Hrun [Hout _]]].
  exists d'. split; [exact Hrun|].
  apply (Hout 1 2024 5). right. split; reflexivity.
Defined.

(** X11: when no stored id is above the AUTOINCREMENT counter, deleting the
    expense that was just added restores the ledger, users and categories,
    but not the counter: the id is not handed out again. *)
Theorem add_then_delete :
  forall (uid : Z) (amount : Q) (category description date : string) (d : db),
  Forall (fun r => exp_id r <= expenses_seq d) (expenses d) ->
  exists d',
    and_then (DB.add_expense uid amount category description date d)
             (DB.delete_expense (expenses_seq d + 1)) = Ok d'
    /\ expenses d' = expenses d
    /\ users d' = users d /\ categories d' = categories d
    /\ expenses_seq d' = expenses_seq d + 1.
Proof.
  intros uid amount category description date d Hseq.
  eexists. split; [reflexivity|]. simpl. repeat split.
  rewrite filter_app. simpl. rewrite Z.eqb_refl. simpl. rewrite app_nil_r.
  apply filter_all. intros r Hr. rewrite Forall_forall in Hseq.
  apply negb_true_iff, Z.eqb_neq. specialize (Hseq r Hr). lia.
Qed.

Lemma add_then_delete_witness :
  exists d',
    and_then (DB.add_expense 1 30%Q "Bills" "rent" "2024-04-01" ledger_one)
             (DB.delete_expense 2) = Ok d'
    /\ expenses d' = expenses ledger_one.
Proof.
  destruct (add_then_delete 1 30%Q "Bills" "rent" "2024-04-01" ledger_one)
    as [d' [Hrun [Hexp _]]].
  - repeat constructor. simpl. lia.
  - exists d'. split; [exact Hrun|exact Hexp].
Defined.

(** ** Keys in the reachable states *)

Lemma NoDup_snoc {A : Type} (l : list A) (x : A) :
  NoDup l -> ~ In x l -> NoDup (l ++ [x]).
Proof.
  intros Hnd Hx. apply Permutation_NoDup with (l := x :: l).
  - apply Permutation_cons_append.
  - constructor; assumption.
Qed.

Lemma fresh_id {A : Type} (key : A -> Z) (l : list A) (seq : Z) :
  Forall (fun r => key r <= seq) l -> ~ In (seq + 1) (map key l).
Proof.
  intros Hseq Hin. apply in_map_iff in Hin. destruct Hin as [r [Hk Hr]].
  rewrite Forall_forall in Hseq. specialize (Hseq r Hr). lia.
Qed.

Lemma bounded_snoc {A : Type} (key : A -> Z) (l : list A) (seq : Z) (x : A) :
  Forall (fun r => key r <= seq) l -> key x = seq + 1 ->
  Forall (fun r => key r <= seq + 1) (l ++ [x]).
Proof.
  intros Hseq Hx. apply Forall_app. split.
  - apply Forall_impl with (P := fun r => key r <= seq); [intros r Hr; lia|exact Hseq].
  - constructor; [lia|constructor].
Qed.

Lemma insert_category_keys (name : string) (uid : option Z) (d : db) :
  keys_invariant d ->
  keys_invariant (match DB.insert_category name uid d with
                  | Ok d' => d'
                  | Raised IntegrityError => d
                  end).
Proof.
  intros Hinv. unfold DB.insert_category.
  destruct (existsb _ (categories d)) eqn:E; [exact Hinv|].
  destruct Hinv as [Hu [Hub [Hc [Hcb Hnames]]]].
  unfold keys_invariant. simpl.
  split; [exact Hu|]. split; [exact Hub|]. split; [|split].
  - rewrite map_app. apply NoDup_snoc; [exact Hc|]. apply fresh_id. exact Hcb.
  - apply bounded_snoc; [exact Hcb|reflexivity].
  - intros u. rewrite filter_app, map_app. simpl.
    destruct (owned_by u (mkCategory (categories_seq d + 1) name uid)) eqn:Hown;
      simpl; [|rewrite app_nil_r; apply Hnames].
    apply NoDup_snoc; [apply Hnames|].
    intros Hin. apply in_map_iff in Hin. destruct Hin as [r [Hname Hr]].
    apply filter_In in Hr. destruct Hr as [Hr Hru].
    rewrite existsb_false_forall in E. specialize (E r Hr).
    unfold owned_by in Hown, Hru. simpl in Hown.
    destruct uid as [u0|]; [|discriminate Hown].
    destruct (cat_user_id r) as [u1|] eqn:Hr1; [|discriminate Hru].
    apply Z.eqb_eq in Hown. apply Z.eqb_eq in Hru. subst u0 u1.
    rewrite Hname, String.eqb_refl in E. simpl in E. rewrite Z.eqb_refl in E.
    discriminate E.
Qed.

Lemma fold_keeps {A : Type} (P : db -> Prop) (f : db -> A -> db) (l : list A) :
  (forall d x, P d -> P (f d x)) -> forall d, P d -> P (fold_left f l d).
Proof.
  intros Hf. induction l as [|x l IH]; intros d Hd; simpl; [exact Hd|].
  apply IH. apply Hf. exact Hd.
Qed.

Lemma step_keys (sha256_hexdigest : string -> string) (d d' : db) :
  step sha256_hexdigest d d' -> keys_invariant d -> keys_invariant d'.
Proof.
  intros Hstep Hinv. destruct Hstep.
  - unfold DB.create_tables. apply fold_keeps; [|exact Hinv].
    intros d0 x. apply insert_category_keys.
  - unfold DB.add_user, DB.insert_user.
    destruct (existsb _ (users d)); simpl; [exact Hinv|].
    destruct Hinv as [Hu [Hub Hcat]]. unfold keys_invariant. simpl.
    split; [|split; [|exact Hcat]].
    + rewrite map_app. apply NoDup_snoc; [exact Hu|]. apply fresh_id. exact Hub.
    + apply bounded_snoc; [exact Hub|reflexivity].
  - destruct Hinv as [Hu [Hub Hcat]]. unfold keys_invariant, DB.set_budget. simpl.
    assert (Hids : map usr_id
                     (map (fun r => if usr_id r =? uid
                                    then mkUser (usr_id r) (usr_username r)
                                                (usr_password_hash r) amount
                                    else r) (users d))
                   = map usr_id (users d)).
    { rewrite map_map. apply map_ext. intros r. destruct (usr_id r =? uid); reflexivity. }
    split; [rewrite Hids; exact Hu|]. split; [|exact Hcat].
    apply Forall_map. apply Forall_impl with (P := fun r => usr_id r <= users_seq d);
      [|exact Hub].
    intros r Hr. destruct (usr_id r =? uid); exact Hr.
  - unfold DB.add_category.
    assert (H := insert_category_keys name uid d Hinv).
    destruct (DB.insert_category name uid d) as [d1|[]]; exact H.
  - inversion H; subst; exact Hinv.
  - inversion H; subst; exact Hinv.
  - inversion H; subst; exact Hinv.
Qed.

(** X13: in every state that calls of the [DB] methods produce from the
    empty database, the ids of each table are distinct and at most the
    table's AUTOINCREMENT counter, usernames are unique, and no user owns two
    categories of the same name. *)
Theorem reachable_keys : forall (sha256_hexdigest : string -> string) (d : db),
  reachable sha256_hexdigest d -> db_invariant d /\ keys_invariant d.
Proof.
  intros sha256_hexdigest d Hreach.
  split; [exact (reachable_invariant _ _ Hreach)|].
  induction Hreach as [|d d' _ IH Hstep].
  - unfold keys_invariant. simpl. repeat split; constructor.
  - exact (step_keys _ _ _ Hstep IH).
Qed.

Lemma reachable_keys_witness :
  db_invariant (DB.create_tables empty_db) /\ keys_invariant (DB.create_tables empty_db).
Proof.
  apply (reachable_keys (fun s => s)).
  apply reachable_step with (d := empty_db); constructor.
Defined.

(** ** Months do not overlap *)

Lemma ltb_not_leb (s t : string) : String.ltb s t = true -> String.leb t s = false.
Proof.
  unfold String.ltb, String.leb. rewrite (String.compare_antisym t s).
  destruct (String.compare s t); simpl; congruence.
Qed.

Lemma next_month_valid (year month : Z) :
  valid_period year month ->
  0 <= fst (next_month year month) <= 9999
  /\ 1 <= snd (next_month year month) <= 12
  /\ fst (next_month year month) * 12 + snd (next_month year month) = year * 12 + month + 1.
Proof.
  intros [Hy [Hm Hlast]]. unfold next_month.
  destruct (Z.eqb_spec month 12) as [->|Hne]; simpl.
  - assert (year <> 9999) by (intros ->; apply Hlast; reflexivity). lia.
  - lia.
Qed.

Lemma period_end_before_later_start (y1 m1 y2 m2 : Z) :
  valid_period y1 m1 -> valid_period y2 m2 ->
  y1 * 12 + m1 < y2 * 12 + m2 ->
  String.leb (iso_first_of_month (fst (next_month y1 m1)) (snd (next_month y1 m1)))
             (iso_first_of_month y2 m2) = true.
Proof.
  intros H1 H2 Hlt.
  destruct (next_month_valid y1 m1 H1) as [Hy [Hm Hkey]].
  destruct H2 as [Hy2 [Hm2 _]].
  rewrite !iso_first_of_month_text by lia.
  unfold String.leb. rewrite iso_text_compare by lia.
  unfold date_key.
  destruct (N.compare_spec
              (Z.to_N (fst (next_month y1 m1)) * 10000
               + Z.to_N (snd (next_month y1 m1)) * 100 + 1)
              (Z.to_N y2 * 10000 + Z.to_N m2 * 100 + 1)); try reflexivity.
  exfalso. lia.
Qed.

Lemma in_month_before (y1 m1 y2 m2 : Z) (date : string) :
  valid_period y1 m1 -> valid_period y2 m2 ->
  y1 * 12 + m1 < y2 * 12 + m2 ->
  in_month y1 m1 date = true -> in_month y2 m2 date = false.
Proof.
  intros H1 H2 Hlt Hin. unfold in_month in *.
  apply andb_true_iff in Hin. destruct Hin as [_ Hhi].
  destruct (String.leb (iso_first_of_month y2 m2) date) eqn:Hlo; [|reflexivity].
  exfalso.
  assert (Hle := string_leb_trans _ _ _ (period_end_before_later_start _ _ _ _ H1 H2 Hlt) Hlo).
  rewrite (ltb_not_leb _ _ Hhi) in Hle. discriminate Hle.
Qed.

(** X14: the periods of two different months (years 0 to 9999, December
    9999 apart) select no common date text, whatever the text: no expense is
    counted in the totals of two months. *)
Theorem months_disjoint : forall (y1 m1 y2 m2 : Z) (date : string),
  valid_period y1 m1 -> valid_period y2 m2 -> (y1, m1) <> (y2, m2) ->
  in_month y1 m1 date = true -> in_month y2 m2 date = false.
Proof.
  intros y1 m1 y2 m2 date H1 H2 Hne Hin.
  assert (Hm1 : 1 <= m1 <= 12) by (destruct H1 as [_ [H _]]; exact H).
  assert (Hm2 : 1 <= m2 <= 12) by (destruct H2 as [_ [H _]]; exact H).
  destruct (Z.lt_trichotomy (y1 * 12 + m1) (y2 * 12 + m2)) as [Hlt|[Heq|Hgt]].
  - exact (in_month_before _ _ _ _ _ H1 H2 Hlt Hin).
  - exfalso. apply Hne. assert (y1 = y2) by lia. assert (m1 = m2) by lia. congruence.
  - destruct (in_month y2 m2 date) eqn:E; [|reflexivity].
    rewrite (in_month_before _ _ _ _ _ H2 H1 Hgt E) in Hin. discriminate Hin.
Qed.

Lemma months_disjoint_witness : in_month 2024 4 "2024-03-15" = false.
Proof.
  apply (months_disjoint 2024 3 2024 4 "2024-03-15").
  - unfold valid_period. repeat split; try lia. discriminate.
  - unfold valid_period. repeat split; try lia. discriminate.
  - discriminate.
  - reflexivity.
Defined.

(** X15: on a ledger whose dates are all ISO calendar dates, the monthly
    total of a valid period is the sum of the amounts of the user's records
    whose date names that year and month. *)
Theorem monthly_total_of_calendar_month : forall (uid year month : Z) (d : db),
  valid_period year month ->
  (forall r, In r (expenses d) -> iso_calendar_date (exp_date r)) ->
  DB.get_monthly_total uid year month d
  = sum_amounts (map exp_amount
      (filter (fun r => (exp_user_id r =? uid) && dated_in year month (exp_date r))
              (expenses d))).
Proof.
  intros uid year month d [Hy [Hm Hlast]].
  exact (get_monthly_total_calendar uid year month d Hy Hm Hlast).
Qed.

Lemma monthly_total_of_calendar_month_witness :
  DB.get_monthly_total 1 2024 3 ledger_one
  = sum_amounts (map exp_amount
      (filter (fun r => (exp_user_id r =? 1) && dated_in 2024 3 (exp_date r))
              (expenses ledger_one))).
Proof.
  apply (monthly_total_of_calendar_month 1 2024 3 ledger_one).
  - unfold valid_period. repeat split; try lia. discriminate.
  - intros r [<-|[]]. exists 2024%N, 3%N, 15%N. split; [|reflexivity].
    unfold calendar_date. vm_compute. intuition discriminate.
Defined.

(** ** The handlers of the main window *)




(** X17: with a row selected, "Update Selected" shows an error exactly when
    "Add Expense" shows that error on the same form, accepts exactly the
    forms that "Add Expense" accepts, and writes the same amount, category,
    description and date that "Add Expense" would store. *)
Theorem update_selected_validation :
  forall (pie_raises : list Q -> bool) (uid eid : Z) (f : MainApp.form) (d : db),
  (forall msg, MainApp.add_expense pie_raises uid f d = MainApp.ShowError msg <->
               MainApp.update_selected (Some eid) f d = MainApp.EditError msg)
  /\ (accepted (MainApp.add_expense pie_raises uid f d) <->
      exists d', MainApp.update_selected (Some eid) f d = MainApp.Edited d')
  /\ (forall q, committed (MainApp.add_expense pie_raises uid f d)
                = Some (with_expense uid q f d) ->
      exists d',
        DB.update_expense eid q (category_or_other (MainApp.category_var f))
                          (Py.strip (MainApp.desc_var f))
                          (Py.strip (MainApp.date_var f)) d = Ok d'
        /\ MainApp.update_selected (Some eid) f d = MainApp.Edited d').
Proof.
  intros pie_raises uid eid f d.
  unfold MainApp.add_expense, MainApp.update_selected, accepted.
  destruct (Py.float (MainApp.amount_var f)) as [[q|]|];
    [destruct (Py.strptime (Py.strip (MainApp.date_var f)))
    |destruct (Py.strptime (Py.strip (MainApp.date_var f)))|]; simpl.
  - destruct (MainApp.draw_summary_raises pie_raises uid _ _ _); simpl;
      (split; [intros msg; split; discriminate|]); (split;
        [split; intros _; eexists; reflexivity|]);
      intros q0 H; injection H as Hd;
      apply app_inv_head in Hd; injection Hd as Hq; subst q0;
      eexists; split; reflexivity.
  - split; [intros msg; split; intros H; inversion H; reflexivity|].
    split; [split; intros [d' H]; discriminate H|].
    intros q0 H. discriminate H.
  - split; [intros msg; split; discriminate|].
    split; [split; intros [d' H]; discriminate H|].
    intros q0 H. discriminate H.
  - split; [intros msg; split; intros H; inversion H; reflexivity|].
    split; [split; intros [d' H]; discriminate H|].
    intros q0 H. discriminate H.
  - split; [intros msg; split; intros H; inversion H; reflexivity|].
    split; [split; intros [d' H]; discriminate H|].
    intros q0 H. discriminate H.
Qed.

Lemma update_selected_validation_witness :
  exists d',
    DB.update_expense 1 (25 # 2)%Q "Other" "lunch" "2024-03-15" ledger_one = Ok d'
    /\ MainApp.update_selected (Some 1) form_blank_category ledger_one = MainApp.Edited d'.
Proof.
  apply (proj2 (proj2 (update_selected_validation negative_wedge 1 1 form_blank_category
                         ledger_one))
           (25 # 2)%Q).
  vm_compute. reflexivity.
Defined.

Lemma refresh_expenses_owned (uid sel : Z) (d : db) :
  In sel (MainApp.refresh_expenses uid d) ->
  exists r, In r (expenses d) /\ exp_id r = sel /\ exp_user_id r = uid.
Proof.
  unfold MainApp.refresh_expenses, DB.get_expenses. intros Hin.
  apply in_map_iff in Hin. destruct Hin as [r [Hid Hr]].
  apply (Permutation_in _ (order_by_perm _ _)) in Hr. apply filter_In in Hr.
  destruct Hr as [Hr Hu]. apply Z.eqb_eq in Hu. exists r. auto.
Qed.

(** X18: when ids are distinct and the selected id comes from the tree that
    [refresh_expenses] filled for the logged-in user, "Update Selected" and
    "Delete Selected" leave the expense list, monthly totals and category
    breakdowns of every other user as they were. *)
Theorem selected_edit_own_ledger :
  forall (uid a sel : Z) (f : MainApp.form) (confirm : bool) (d d' : db),
  NoDup (map exp_id (expenses d)) ->
  In sel (MainApp.refresh_expenses uid d) -> a <> uid ->
  MainApp.update_selected (Some sel) f d = MainApp.Edited d'
  \/ MainApp.delete_selected (Some sel) confirm d = MainApp.Edited d' ->
  same_view a d d'.
Proof.
  intros uid a sel f confirm d d' Hnd Hsel Ha Hrun.
  destruct (refresh_expenses_owned uid sel d Hsel) as [r [Hr [Hid Hu]]].
  assert (Hown : forall x, In x (expenses d) -> exp_id x = sel -> exp_user_id x <> a).
  { intros x Hx Hxid.
    rewrite (unique_id_row (expenses d) r x Hnd Hr Hx) by congruence. congruence. }
  destruct Hrun as [Hrun|Hrun].
  - unfold MainApp.update_selected in Hrun.
    destruct (Py.float (MainApp.amount_var f)) as [[q|]|]; try discriminate Hrun;
      destruct (Py.strptime (Py.strip (MainApp.date_var f))); try discriminate Hrun.
    match type of Hrun with
    | context [DB.update_expense ?e ?q0 ?c ?ds ?dt d] =>
        destruct (DB.update_expense e q0 c ds dt d) as [d1|e1] eqn:E;
          [|discriminate Hrun];
        inversion Hrun; subst d1;
        exact (edit_frame a e q0 c ds dt d d' Hown (or_introl E))
    end.
  - unfold MainApp.delete_selected in Hrun. destruct confirm; [|discriminate Hrun].
    destruct (DB.delete_expense sel d) as [d1|e1] eqn:E; [|discriminate Hrun].
    inversion Hrun; subst d1.
    exact (edit_frame a sel 0%Q "" "" "" d d' Hown (or_intror E)).
Qed.

Lemma selected_edit_own_ledger_witness :
  same_view 2 ledger_one (mkDb (users ledger_one) 1 [] 0 [] 1).
Proof.
  apply (selected_edit_own_ledger 1 2 1 form_blank_category true ledger_one).
  - repeat constructor. simpl. tauto.
  - left. reflexivity.
  - lia.
  - right. reflexivity.
Defined.

(** X19: a cancelled or empty answer to the category dialog changes nothing;
    any other answer is stored stripped of surrounding white space (an answer
    of white space only as the empty name), is listed for the user afterwards,
    and a later answer with the same stripped text is reported as existing. *)
Theorem add_category_dialog : forall (uid : Z) (name name' : string) (d : db),
  MainApp.add_category uid None d = (None, d)
  /\ MainApp.add_category uid (Some "") d = (None, d)
  /\ (name <> "" -> name' <> "" -> Py.strip name' = Py.strip name ->
      exists ok d',
        MainApp.add_category uid (Some name) d = (Some ok, d')
        /\ In (Py.strip name) (DB.get_categories (Some uid) d')
        /\ MainApp.add_category uid (Some name') d' = (Some false, d')).
Proof.
  intros uid name name' d. split; [reflexivity|]. split; [reflexivity|].
  intros Hn Hn' Hstrip. unfold MainApp.add_category.
  apply String.eqb_neq in Hn. apply String.eqb_neq in Hn'. rewrite Hn, Hn', Hstrip.
  assert (Hhas := add_category_then_has (Py.strip name) uid d).
  destruct (DB.add_category (Py.strip name) (Some uid) d) as [ok d'] eqn:E.
  simpl in Hhas. exists ok, d'. split; [reflexivity|].
  split; [apply has_category_listed; exact Hhas|].
  rewrite (add_category_taken _ _ _ Hhas). reflexivity.
Qed.

Lemma add_category_dialog_witness :
  exists ok d',
    MainApp.add_category 1 (Some "  ") empty_db = (Some ok, d')
    /\ In "" (DB.get_categories (Some 1) d')
    /\ MainApp.add_category 1 (Some " ") d' = (Some false, d').
Proof.
  apply (proj2 (proj2 (add_category_dialog 1 "  " " " empty_db)));
    [discriminate|discriminate|reflexivity].
Defined.

(** ** Own category names *)

Lemma count_own_names (uid : Z) (name : string) (l : list category_row) :
  (forall r, In r l -> cat_user_id r = None -> cat_name r <> name) ->
  count_occ string_dec (map cat_name (filter (visible_to uid) l)) name
  = count_occ string_dec (map cat_name (filter (owned_by uid) l)) name.
Proof.
  induction l as [|r l IH]; intros Hglob; [reflexivity|].
  assert (IH' := IH (fun x Hx => Hglob x (or_intror Hx))).
  assert (Hv : visible_to uid r
               = match cat_user_id r with Some u => u =? uid | None => true end)
    by (unfold visible_to, is_global, owned_by; destruct (cat_user_id r); reflexivity).
  assert (Ho : owned_by uid r
               = match cat_user_id r with Some u => u =? uid | None => false end)
    by reflexivity.
  cbn [filter]. rewrite Hv, Ho.
  destruct (cat_user_id r) as [u|] eqn:Hu.
  - destruct (u =? uid); cbn [map count_occ]; [|exact IH'].
    destruct (string_dec (cat_name r) name); [f_equal|]; exact IH'.
  - assert (Hne := Hglob r (or_introl eq_refl) Hu). cbn [map count_occ].
    destruct (string_dec (cat_name r) name); [contradiction|exact IH'].
Qed.

(** X5: in a state that satisfies the key invariant, a name that no global
    category carries occurs at most once in a user's category list. *)
Theorem own_category_listed_once : forall (uid : Z) (name : string) (d : db),
  keys_invariant d ->
  (forall r, In r (categories d) -> cat_user_id r = None -> cat_name r <> name) ->
  (count_occ string_dec (DB.get_categories (Some uid) d) name <= 1)%nat.
Proof.
  intros uid name d [_ [_ [_ [_ Hnames]]]] Hglob.
  assert (Hperm : Permutation (DB.get_categories (Some uid) d)
                    (map cat_name (filter (visible_to uid) (categories d))))
    by (unfold DB.get_categories; apply Permutation_map, order_by_perm).
  rewrite (proj1 (Permutation_count_occ string_dec _ _) Hperm name).
  rewrite (count_own_names uid name (categories d) Hglob).
  apply (proj1 (NoDup_count_occ string_dec _) (Hnames uid)).
Qed.

Lemma own_category_listed_once_witness :
  (count_occ string_dec
     (DB.get_categories (Some 1%Z) (snd (DB.add_category "Pets" (Some 1%Z) empty_db)))
     "Pets" <= 1)%nat.
Proof.
  apply own_category_listed_once.
  - apply (step_keys (fun s => s) empty_db); [apply step_add_category|].
    unfold keys_invariant. simpl. repeat split; constructor.
  - intros r [<-|[]]. discriminate.
Defined.

(** ** Accounts *)

Lemma find_map_same_test {A : Type} (p : A -> bool) (g : A -> A) (l : list A) :
  (forall x, p (g x) = p x) -> find p (map g l) = option_map g (find p l).
Proof.
  intros Hp. induction l as [|x l IH]; simpl; [reflexivity|].
  rewrite Hp. destruct (p x); [reflexivity|exact IH].
Qed.

(** X2: registering a user leaves the authentication of every other
    username and the budget of every existing user id as they were, and
    [set_budget] does not change which user a username and password
    authenticate as. *)
Theorem accounts_frame :
  forall (sha256_hexdigest : string -> string) (u s : string) (uid : Z) (amount : Q) (d : db),
  (forall u' s', u' <> u ->
     DB.authenticate sha256_hexdigest u' s' (snd (DB.add_user sha256_hexdigest u s d))
     = DB.authenticate sha256_hexdigest u' s' d)
  /\ (forall uid', (exists r, In r (users d) /\ usr_id r = uid') ->
        DB.get_budget uid' (snd (DB.add_user sha256_hexdigest u s d)) = DB.get_budget uid' d)
  /\ (forall u' s',
        option_map usr_id (DB.authenticate sha256_hexdigest u' s' (DB.set_budget uid amount d))
        = option_map usr_id (DB.authenticate sha256_hexdigest u' s' d)).
Proof.
  intros sha256_hexdigest u s uid amount d. split; [|split].
  - intros u' s' Hne. unfold DB.add_user, DB.insert_user.
    destruct (existsb _ (users d)); simpl; [reflexivity|].
    unfold DB.authenticate. simpl. rewrite find_app. simpl.
    assert (E : String.eqb u u' = false) by (apply String.eqb_neq; congruence).
    rewrite E. simpl. destruct (find _ (users d)); reflexivity.
  - intros uid' [r [Hr Hid]]. unfold DB.add_user, DB.insert_user.
    destruct (existsb _ (users d)); simpl; [reflexivity|].
    unfold DB.get_budget. simpl. rewrite find_app.
    destruct (find (fun r0 => usr_id r0 =? uid') (users d)) eqn:F; [reflexivity|].
    exfalso. assert (H := find_none _ _ F r Hr). simpl in H.
    apply Z.eqb_neq in H. contradiction.
  - intros u' s'. unfold DB.authenticate, DB.set_budget. simpl.
    rewrite find_map_same_test.
    + destruct (find _ (users d)) as [r|]; simpl; [|reflexivity].
      destruct (usr_id r =? uid); reflexivity.
    + intros r. destruct (usr_id r =? uid); reflexivity.
Qed.

Lemma accounts_frame_witness :
  DB.get_budget 1 (snd (DB.add_user (fun s => s) "bob" "pw" ledger_one))
  = DB.get_budget 1 ledger_one.
Proof.
  apply (proj1 (proj2 (accounts_frame (fun s => s) "bob" "pw" 0 0%Q ledger_one))).
  exists (mkUser 1 "alice" "h" 0%Q). split; [left; reflexivity|reflexivity].
Defined.

(** ** The login window *)

(** X20: the login window strips both fields: with a blank username or
    password neither "Register" nor "Login" reaches the database; with a
    fresh username "Register" succeeds, "Login" with fields that strip to the
    same texts opens the main window for the new user, and a second
    "Register" of that username is reported as existing. *)
Theorem register_then_login :
  forall (sha256_hexdigest : string -> string)
         (username password username' password' : string) (d : db),
  (Py.strip username = "" \/ Py.strip password = "" ->
   LoginWindow.register sha256_hexdigest username password d
   = (LoginWindow.RegisterMessage "Enter username & password", d)
   /\ LoginWindow.login sha256_hexdigest username password d
      = LoginWindow.LoginMessage "Enter username & password")
  /\ (Py.strip username <> "" -> Py.strip password <> "" ->
      (forall r, In r (users d) -> usr_username r <> Py.strip username) ->
      Py.strip username' = Py.strip username -> Py.strip password' = Py.strip password ->
      exists d',
        LoginWindow.register sha256_hexdigest username password d
        = (LoginWindow.ShowSuccess, d')
        /\ LoginWindow.login sha256_hexdigest username' password' d'
           = LoginWindow.OpenMainApp (users_seq d + 1) (Py.strip username)
        /\ LoginWindow.register sha256_hexdigest username' password' d'
           = (LoginWindow.ShowUsernameExists, d')).
Proof.
  intros sha256_hexdigest username password username' password' d.
  unfold LoginWindow.register, LoginWindow.login. split.
  - intros Hblank.
    assert (E : String.eqb (Py.strip username) "" || String.eqb (Py.strip password) "" = true).
    { apply orb_true_iff. destruct Hblank as [H|H]; [left|right];
        apply String.eqb_eq; exact H. }
    rewrite E. split; reflexivity.
  - intros Hu Hp Hfresh Hu' Hp'. rewrite Hu', Hp'.
    apply String.eqb_neq in Hu. apply String.eqb_neq in Hp. rewrite Hu, Hp. simpl.
    rewrite (add_user_fresh sha256_hexdigest _ (Py.strip password) d Hfresh).
    eexists. split; [reflexivity|]. split.
    + unfold DB.authenticate. simpl. rewrite find_app.
      rewrite find_none_all.
      * simpl. rewrite !String.eqb_refl. reflexivity.
      * intros r Hr. apply andb_false_iff. left. apply String.eqb_neq.
        exact (Hfresh r Hr).
    + rewrite add_user_taken; [reflexivity|].
      eexists. split; [apply in_or_app; right; left; reflexivity|reflexivity].
Qed.

Lemma register_then_login_witness :
  exists d',
    LoginWindow.register (fun s => s) " alice " "pw1" empty_db = (LoginWindow.ShowSuccess, d')
    /\ LoginWindow.login (fun s => s) "alice" " pw1 " d' = LoginWindow.OpenMainApp 1 "alice"
    /\ LoginWindow.register (fun s => s) "alice" " pw1 " d'
       = (LoginWindow.ShowUsernameExists, d').
Proof.
  apply (proj2 (register_then_login (fun s => s) " alice " "pw1" "alice" " pw1 " empty_db));
    try discriminate; try reflexivity.
  intros r [].
Defined.
